(** * Koodkoosaurus: the tongue-switch gesture detector

    A shallow embedding of [tongue_switch.py] (class [TongueSwitch]) and
    [tongue_switch_2p.py] (class [MultiTongueSwitch]) and the properties
    their specification states about them.

    Conventions of the embedding.
    - Python [int] is [Z]; Python [float] (wall-clock times, the presence
      fraction, the thresholds) is idealised as an exact rational [Q].
    - A Python list indexed by a slot number is a [list] read and written
      through [py_get] and [py_set], which raise [IndexError] out of range
      and count negative indices from the end, as Python does.
    - A method that mutates the object is a [call]: it takes the object and
      gives back what it returned or raised together with the object it
      left.  A method that only reads returns a [result].
    - The lock makes each method body and each publish atomic, so a program
      is an interleaving of such steps ([run]).
    - The camera, the landmark model and the OpenCV pixel operations are
      outside the repository.  One loop iteration of the worker is a
      function of what they hand back for that frame ([detection],
      [frame]).  The mask operations of [_tongue_mask] are written out on
      0/255 masks after OpenCV's documentation; OpenCV calls on arrays of
      the right type and shape are taken to return normally, so the branch
      [except cv2.error] is never entered.
    - The debug window and the drawing on the preview are left out: the
      preview image of a frame is an input. *)

From Stdlib Require Import ZArith QArith Lia List Bool Permutation Sorted.
From stdpp Require Import base list.
Import ListNotations.

Local Open Scope Z_scope.

(** ** Exceptions *)

Inductive exn : Type :=
| IndexError
| RuntimeError.

Inductive result (A : Type) : Type :=
| Ok (a : A)
| Raise (e : exn).
Arguments Ok {A} a.
Arguments Raise {A} e.

Definition bind {A B : Type} (r : result A) (k : A -> result B) : result B :=
  match r with
  | Ok a => k a
  | Raise e => Raise e
  end.

Notation "'let*' x ':=' r 'in' k" := (bind r (fun x => k))
  (at level 10, x name, r at level 100, k at level 200).

(** ** Method calls

    A method that mutates the object and may raise: it runs on the object,
    returns a value or raises, and leaves the object as it is at that
    point (what was written before an exception stays written). *)
Definition call (S A : Type) : Type := S -> result A * S.

Definition ret {S A : Type} (a : A) : call S A := fun s => (Ok a, s).

Definition lift {S A : Type} (r : result A) : call S A := fun s => (r, s).

Definition read {S A : Type} (g : S -> A) : call S A := fun s => (Ok (g s), s).

Definition write {S : Type} (g : S -> S) : call S unit := fun s => (Ok tt, g s).

Definition and_then {S A B : Type} (m : call S A) (k : A -> call S B) : call S B :=
  fun s =>
    match m s with
    | (Ok a, s') => k a s'
    | (Raise e, s') => (Raise e, s')
    end.

Notation "'do' x <- m ; k" := (and_then m (fun x => k))
  (at level 20, x name, m at level 100, k at level 200, only parsing).

(** ** Python list indexing *)

(** [l[i]]: the position an index denotes, or nothing when it is out of
    range.  [-len <= i < 0] counts from the end. *)
Definition py_norm (len : nat) (i : Z) : option nat :=
  if (0 <=? i) && (i <? Z.of_nat len) then Some (Z.to_nat i)
  else if (- Z.of_nat len <=? i) && (i <? 0) then Some (Z.to_nat (Z.of_nat len + i))
  else None.

Definition py_get {A : Type} (l : list A) (i : Z) : result A :=
  match py_norm (length l) i with
  | Some n =>
      match l !! n with
      | Some a => Ok a
      | None => Raise IndexError
      end
  | None => Raise IndexError
  end.

Definition py_set {A : Type} (l : list A) (i : Z) (a : A) : result (list A) :=
  match py_norm (length l) i with
  | Some n => Ok (<[n := a]> l)
  | None => Raise IndexError
  end.

(** ** Direction labels *)

Inductive direction_label : Type :=
| CENTER
| LEFT
| RIGHT
| UP
| DOWN.

(** [_classify_direction(cx, cy, mx, my, dead_px)] *)
Definition _classify_direction (cx cy mx my dead_px : Z) : direction_label :=
  let dx := cx - mx in
  let dy := cy - my in
  if (Z.abs dx <? dead_px) && (Z.abs dy <? dead_px) then CENTER
  else if Z.abs dx >=? Z.abs dy then (if dx >? 0 then RIGHT else LEFT)
  else (if dy >? 0 then DOWN else UP).

(** ** Binary masks

    A [uint8] mask whose pixels are 0 or 255 is a list of rows of booleans
    ([true] for 255).  Row index is [y], column index is [x]. *)

Definition mask : Type := list (list bool).

(** An HSV image: rows of (h, s, v) pixels, as [cv2.cvtColor(roi,
    COLOR_BGR2HSV)] returns them. *)
Definition hsv_pixel : Type := (Z * Z * Z)%type.
Definition hsv_image : Type := list (list hsv_pixel).

Definition b2z (b : bool) : Z := if b then 1 else 0.

Definition rows {A : Type} (m : list (list A)) : Z := Z.of_nat (length m).

Definition cols {A : Type} (m : list (list A)) : Z :=
  match m with
  | [] => 0
  | r :: _ => Z.of_nat (length r)
  end.

(** numpy's [.size] of a two-dimensional array *)
Definition size2 {A : Type} (m : list (list A)) : Z := rows m * cols m.

(** the pixel at row [r], column [c]; [false] outside the array *)
Definition pix (m : mask) (r c : Z) : bool :=
  if (0 <=? r) && (0 <=? c) then
    match m !! Z.to_nat r with
    | Some row => default false (row !! Z.to_nat c)
    | None => false
    end
  else false.

Definition inside (m : mask) (r c : Z) : bool :=
  (0 <=? r) && (r <? rows m) && (0 <=? c) && (c <? cols m).

Definition clamp (lo hi x : Z) : Z := Z.max lo (Z.min hi x).

(** [int(mask.sum() // 255)]: the number of set pixels *)
Definition count_px (m : mask) : Z :=
  fold_right (fun row acc => fold_right (fun b a => b2z b + a) 0 row + acc) 0 m.

(** [np.zeros_like(m)] *)
Definition zeros_like (m : mask) : mask := map (map (fun _ => false)) m.

(** [cv2.inRange(hsv, lo, hi)]: inclusive bounds on every channel *)
Definition inRange (img : hsv_image) (lo hi : hsv_pixel) : mask :=
  map (map (fun '(h, s, v) =>
    let '(lh, ls, lv) := lo in
    let '(hh, hs, hv) := hi in
    (lh <=? h) && (h <=? hh) && (ls <=? s) && (s <=? hs) && (lv <=? v) && (v <=? hv)))
    img.

Definition mask_zip (f : bool -> bool -> bool) (a b : mask) : mask :=
  zip_with (zip_with f) a b.

(** [m1 | m2] and [cv2.bitwise_and(m, mouth_mask)] *)
Definition bitwise_or : mask -> mask -> mask := mask_zip orb.
Definition bitwise_and : mask -> mask -> mask := mask_zip andb.

Definition offsets (k : Z) : list Z := map (fun n => Z.of_nat n - k) (seq 0 (Z.to_nat (2 * k + 1))).

(** the pixels of the (2k+1) x (2k+1) window around (r, c), each read
    through [rd] *)
Definition window (rd : Z -> Z -> bool) (k r c : Z) : list bool :=
  flat_map (fun dr => map (fun dc => rd (r + dr) (c + dc)) (offsets k)) (offsets k).

Definition count_true (l : list bool) : Z := fold_right (fun b a => b2z b + a) 0 l.

Definition map_px (f : Z -> Z -> bool) (m : mask) : mask :=
  imap (fun r row => imap (fun c _ => f (Z.of_nat r) (Z.of_nat c)) row) m.

(** [cv2.medianBlur(m, 5)] on a 0/255 mask: the median of the 25 window
    values is 255 exactly when at least 13 of them are.  OpenCV replicates
    the border pixels for this filter. *)
Definition medianBlur5 (m : mask) : mask :=
  let rd r c := pix m (clamp 0 (rows m - 1) r) (clamp 0 (cols m - 1) c) in
  map_px (fun r c => 13 <=? count_true (window rd 2 r c)) m.

(** Erosion and dilation by the 3 x 3 kernel of ones.  OpenCV's default
    border for morphology leaves pixels outside the image out of the
    minimum and of the maximum. *)
Definition erode3 (m : mask) : mask :=
  let rd r c := if inside m r c then pix m r c else true in
  map_px (fun r c => forallb id (window rd 1 r c)) m.

Definition dilate3 (m : mask) : mask :=
  let rd r c := if inside m r c then pix m r c else false in
  map_px (fun r c => existsb id (window rd 1 r c)) m.

(** [cv2.morphologyEx(m, cv2.MORPH_OPEN, np.ones((3,3)))], one iteration *)
Definition morph_open3 (m : mask) : mask := dilate3 (erode3 m).

(** [_tongue_mask(bgr_roi, mouth_mask)], given the HSV conversion of the
    region.  [bgr_roi.size] is three times the pixel count of [hsv]. *)
Definition _tongue_mask (hsv : hsv_image) (mouth_mask : mask) : mask :=
  if (3 * size2 hsv =? 0) || (size2 mouth_mask =? 0) then zeros_like mouth_mask
  else
    let m1 := inRange hsv (0, 60, 70) (12, 255, 255) in
    let m2 := inRange hsv (160, 60, 70) (179, 255, 255) in
    let m := bitwise_or m1 m2 in
    let m := bitwise_and m mouth_mask in
    let m := medianBlur5 m in
    let m := morph_open3 m in
    m.

(** [cv2.moments(mask, binaryImage=True)]: m00 is the number of set pixels,
    m10 the sum of their column indices, m01 the sum of their row indices. *)
Definition moment_sum (coord : Z -> Z -> Z) (m : mask) : Z :=
  fold_right Z.add 0
    (imap (fun r row =>
       fold_right Z.add 0 (imap (fun c b => b2z b * coord (Z.of_nat r) (Z.of_nat c)) row)) m).

Definition m00 (m : mask) : Z := moment_sum (fun _ _ => 1) m.
Definition m10 (m : mask) : Z := moment_sum (fun _ c => c) m.
Definition m01 (m : mask) : Z := moment_sum (fun r _ => r) m.

(** ** Numbers *)

(** Python's [int(x)] on a float: truncation toward zero *)
Definition py_int (q : Q) : Z := Z.quot (Qnum q) (Zpos (Qden q)).

(** [a > b] and [a >= b] on floats *)
Definition Qgtb (a b : Q) : bool := negb (Qle_bool a b).
Definition Qgeb (a b : Q) : bool := Qle_bool b a.

(** ** Module-level definitions shared by both files *)

Definition INNER_LIPS : list Z :=
  [78; 191; 80; 81; 82; 13; 312; 311; 310; 415; 308; 324; 318; 402; 317; 14; 87; 178; 88; 95].

(** [_open_camera()].  [deps_ok] is [TONGUE_DEPS_OK] (the one-player file
    has no such test: it is [_open_camera true] there); [opened] tells, for
    each candidate (index, backend) pair of the platform in order, whether
    [cap.isOpened()] holds.  The result is the position of the capture
    that was returned. *)
Fixpoint first_opened (opened : list bool) (n : nat) : option nat :=
  match opened with
  | [] => None
  | o :: rest => if o then Some n else first_opened rest (S n)
  end.

Definition _open_camera (deps_ok : bool) (opened : list bool) : result nat :=
  if negb deps_ok then Raise RuntimeError
  else
    match first_opened opened 0 with
    | Some n => Ok n
    | None => Raise RuntimeError
    end.

(** [_mouth_open_amount(lms, w, h)], given [int(lms[13].y*h)] and
    [int(lms[14].y*h)] *)
Definition _mouth_open_amount (up_y lo_y : Z) : Z := Z.abs (lo_y - up_y).

(** ** What the outside world hands to one loop iteration *)

(** One entry of [res.multi_face_landmarks], seen through the calls the
    worker makes on it. *)
Record detection : Type := {
  det_x : Z;                (* x, y, ww, hh = cv2.boundingRect(inner) *)
  det_y : Z;
  det_ww : Z;
  det_hh : Z;
  det_up_y : Z;             (* int(lms[13].y*h) *)
  det_lo_y : Z;             (* int(lms[14].y*h) *)
  det_hsv : hsv_image;      (* cv2.cvtColor(roi, cv2.COLOR_BGR2HSV) *)
  det_mouth : mask          (* mouth_mask after cv2.fillPoly(mouth_mask, [inner_roi], 255) *)
}.

Definition image : Type := list (list (Z * Z * Z)).

(** A frame for which [cap.read()] succeeded. *)
Record frame : Type := {
  fr_w : Z;                        (* h, w = frame_bgr.shape[:2] *)
  fr_h : Z;
  fr_landmarks : list detection;   (* res.multi_face_landmarks, [] for None;
                                      FaceMesh(max_num_faces=self._maxp) *)
  fr_rgb : image                   (* cvtColor(resize(annotated, size), BGR2RGB) *)
}.

(** The constructor arguments the model depends on. *)
Record config : Type := {
  frac_threshold : Q;
  min_open_px : Z;
  debounce_s : Q;
  dir_dead_frac : Q;
  max_players : nat
}.

Definition default_config : config :=
  {| frac_threshold := 6 # 100;
     min_open_px := 8;
     debounce_s := 12 # 100;
     dir_dead_frac := 10 # 100;
     max_players := 2 |}.

(** The padded mouth box [(x0, y0, x1, y1)] *)
Definition mouth_box (w h : Z) (d : detection) : Z * Z * Z * Z :=
  let pad := 6 in
  let x0 := Z.max 0 (det_x d - pad) in
  let y0 := Z.max 0 (det_y d - pad) in
  let x1 := Z.min w (det_x d + det_ww d + pad) in
  let y1 := Z.min h (det_y d + det_hh d + pad) in
  (x0, y0, x1, y1).

(** [tongue_px], [mouth_px] and [frac = tongue_px / max(1, mouth_px)] *)
Definition tongue_px (d : detection) : Z := count_px (_tongue_mask (det_hsv d) (det_mouth d)).
Definition mouth_px (d : detection) : Z := count_px (det_mouth d).
Definition frac (d : detection) : Q :=
  (inject_Z (tongue_px d) / inject_Z (Z.max 1 (mouth_px d)))%Q.

(** [tongue_present = (open_px >= min_open) and (frac >= frac_th)] *)
Definition tongue_present (cfg : config) (d : detection) : bool :=
  (_mouth_open_amount (det_up_y d) (det_lo_y d) >=? min_open_px cfg)
  && Qgeb (frac d) (frac_threshold cfg).

(** The direction computed under [if tongue_present and tongue_px > 0:],
    [None] when a guard fails.  [int(m10/m00)] truncates the quotient. *)
Definition face_direction (cfg : config) (w h : Z) (d : detection) : option direction_label :=
  let '(x0, y0, x1, y1) := mouth_box w h d in
  let tmask := _tongue_mask (det_hsv d) (det_mouth d) in
  let mx := (x0 + x1) / 2 in
  let my := (y0 + y1) / 2 in
  if tongue_present cfg d && (tongue_px d >? 0) then
    if m00 tmask >? 0 then
      let cx := x0 + Z.quot (m10 tmask) (m00 tmask) in
      let cy := y0 + Z.quot (m01 tmask) (m00 tmask) in
      let dead_px :=
        py_int (dir_dead_frac cfg * inject_Z (Z.max 1 (Z.max (x1 - x0) (y1 - y0))))%Q in
      Some (_classify_direction cx cy mx my dead_px)
    else None
  else None.

(** The guards [x1 > x0 and y1 > y0] and [mouth_mask.size and
    inner_roi.size >= 6] around the segmentation. *)
Definition box_ok (w h : Z) (d : detection) : bool :=
  let '(x0, y0, x1, y1) := mouth_box w h d in
  (x1 >? x0) && (y1 >? y0).

Definition masks_ok (d : detection) : bool :=
  negb (size2 (det_mouth d) =? 0) && (2 * Z.of_nat (length INNER_LIPS) >=? 6).

(** ** The worker thread

    [threading.Thread]: [start()] raises [RuntimeError] on a thread that was
    started before, [join()] raises [RuntimeError] on a thread that was never
    started.  A started thread first opens the camera ([Started]), then
    loops over frames ([Looping]) until it returns ([Finished]). *)
Inductive thread_state : Type :=
| NotStarted
| Started
| Looping
| Finished.

Definition thread_start (th : thread_state) : result thread_state :=
  match th with
  | NotStarted => Ok Started
  | _ => Raise RuntimeError
  end.

Definition thread_join (th : thread_state) : result unit :=
  match th with
  | NotStarted => Raise RuntimeError
  | _ => Ok tt
  end.

(** ** Faces of a frame (two-player file) *)

Record face : Type := {
  mx : Z;
  my : Z;
  tongue : bool;
  direction : option direction_label
}.

(** The body of [for face in res.multi_face_landmarks[:self._maxp]]: the
    entry appended to [faces], or [None] when [mx] stays [None]. *)
Definition face_of (cfg : config) (w h : Z) (d : detection) : option face :=
  let '(x0, y0, x1, y1) := mouth_box w h d in
  if box_ok w h d then
    if masks_ok d then
      Some {| mx := (x0 + x1) / 2;
              my := (y0 + y1) / 2;
              tongue := tongue_present cfg d;
              direction := face_direction cfg w h d |}
    else None
  else None.

Definition faces_of (cfg : config) (fr : frame) : list face :=
  omap (face_of cfg (fr_w fr) (fr_h fr)) (take (max_players cfg) (fr_landmarks fr)).

(** [faces.sort(key=lambda d: d["mx"])]: Python's sort is stable *)
Fixpoint insert_face (a : face) (l : list face) : list face :=
  match l with
  | [] => [a]
  | b :: l' => if mx a <=? mx b then a :: b :: l' else b :: insert_face a l'
  end.

Definition sort_faces (l : list face) : list face := fold_right insert_face [] l.

Module MultiTongueSwitch.

Record t : Type := {
  _enabled : bool;
  _cfg : config;
  _state : list bool;
  _prev_state : list bool;
  _last_event_time : list Q;
  _direction : list (option direction_label);
  _preview : option image;
  _stop : bool;
  _thread : thread_state
}.

Definition set_state (f : t) (v : list bool) : t :=
  {| _enabled := _enabled f; _cfg := _cfg f; _state := v; _prev_state := _prev_state f;
     _last_event_time := _last_event_time f; _direction := _direction f;
     _preview := _preview f; _stop := _stop f; _thread := _thread f |}.

Definition set_prev_state (f : t) (v : list bool) : t :=
  {| _enabled := _enabled f; _cfg := _cfg f; _state := _state f; _prev_state := v;
     _last_event_time := _last_event_time f; _direction := _direction f;
     _preview := _preview f; _stop := _stop f; _thread := _thread f |}.

Definition set_last_event_time (f : t) (v : list Q) : t :=
  {| _enabled := _enabled f; _cfg := _cfg f; _state := _state f; _prev_state := _prev_state f;
     _last_event_time := v; _direction := _direction f;
     _preview := _preview f; _stop := _stop f; _thread := _thread f |}.

Definition set_direction (f : t) (v : list (option direction_label)) : t :=
  {| _enabled := _enabled f; _cfg := _cfg f; _state := _state f; _prev_state := _prev_state f;
     _last_event_time := _last_event_time f; _direction := v;
     _preview := _preview f; _stop := _stop f; _thread := _thread f |}.

Definition set_preview (f : t) (v : option image) : t :=
  {| _enabled := _enabled f; _cfg := _cfg f; _state := _state f; _prev_state := _prev_state f;
     _last_event_time := _last_event_time f; _direction := _direction f;
     _preview := v; _stop := _stop f; _thread := _thread f |}.

Definition set_stop (f : t) (v : bool) : t :=
  {| _enabled := _enabled f; _cfg := _cfg f; _state := _state f; _prev_state := _prev_state f;
     _last_event_time := _last_event_time f; _direction := _direction f;
     _preview := _preview f; _stop := v; _thread := _thread f |}.

Definition set_thread (f : t) (v : thread_state) : t :=
  {| _enabled := _enabled f; _cfg := _cfg f; _state := _state f; _prev_state := _prev_state f;
     _last_event_time := _last_event_time f; _direction := _direction f;
     _preview := _preview f; _stop := _stop f; _thread := v |}.

(** [__init__]; [deps_ok] is [TONGUE_DEPS_OK] *)
Definition __init__ (deps_ok : bool) (cfg : config) : t :=
  let n := max_players cfg in
  {| _enabled := deps_ok;
     _cfg := cfg;
     _state := replicate n false;
     _prev_state := replicate n false;
     _last_event_time := replicate n 0%Q;
     _direction := replicate n None;
     _preview := None;
     _stop := false;
     _thread := NotStarted |}.

(** *** API *)

Definition start : call t unit :=
  do en <- read _enabled;
  if en : bool then
    do th <- read _thread;
    do th' <- lift (thread_start th);
    write (fun f => set_thread f th')
  else ret tt.

Definition stop : call t unit :=
  do en <- read _enabled;
  if negb en then ret tt
  else
    do _u <- write (fun f => set_stop f true);
    do th <- read _thread;
    lift (thread_join th).

Definition get_state (f : t) (i : Z) : result bool :=
  if negb (_enabled f) then Ok false
  else py_get (_state f) i.

Definition get_direction (f : t) (i : Z) : result (option direction_label) :=
  if negb (_enabled f) then Ok None
  else py_get (_direction f) i.

(** [self._xs[i]] and [self._xs[i] = a] for one of the per-slot lists *)
Definition item {A : Type} (xs : t -> list A) (i : Z) : call t A :=
  do l <- read xs;
  lift (py_get l i).

Definition set_item {A : Type} (xs : t -> list A) (upd : t -> list A -> t)
    (i : Z) (a : A) : call t unit :=
  do l <- read xs;
  do l' <- lift (py_set l i a);
  write (fun f => upd f l').

(** [now] is the value of [time.time()] read by the call. *)
Definition consume_rising_edge (i : Z) (now : Q) : call t bool :=
  do en <- read _enabled;
  if negb en then ret false
  else
    do fire <-
      (do s <- item _state i;
       if s : bool then
         do p <- item _prev_state i;
         if negb p then
           do last <- item _last_event_time i;
           do debounce <- read (fun f => debounce_s (_cfg f));
           ret (Qgtb (now - last) debounce)
         else ret false
       else ret false);
    if fire : bool then
      do _u <- set_item _prev_state set_prev_state i true;
      do _v <- set_item _last_event_time set_last_event_time i now;
      ret true
    else
      do s <- item _state i;
      do _u <- set_item _prev_state set_prev_state i s;
      ret false.

Definition get_preview_rgb (f : t) : option image :=
  if negb (_enabled f) then None
  else
    match _preview f with
    | None => None
    | Some img => Some img
    end.

(** *** Worker *)

(** The slot values the publish loop writes at index [i]. *)
Definition slot_values (faces : list face) (i : nat) : bool * option direction_label :=
  if (i <? length faces)%nat then
    match faces !! i with
    | Some fc => (tongue fc, direction fc)
    | None => (false, None)
    end
  else (false, None).

(** [for i in range(self._maxp): ...] under the lock *)
Fixpoint publish_slots (faces : list face) (idx : list nat) (f : t) : result t :=
  match idx with
  | [] => Ok f
  | i :: rest =>
      let '(s, d) := slot_values faces i in
      let* st := py_set (_state f) (Z.of_nat i) s in
      let f := set_state f st in
      let* dr := py_set (_direction f) (Z.of_nat i) d in
      let f := set_direction f dr in
      publish_slots faces rest f
  end.

Definition publish (f : t) (faces : list face) (rgb : image) : result t :=
  let* f := publish_slots faces (seq 0 (max_players (_cfg f))) f in
  Ok (set_preview f (Some rgb)).

(** One pass through the body of [while not self._stop.is_set()] after a
    read: [None] is [ok == False] (sleep and continue). *)
Definition loop_body (f : t) (rd : option frame) : result t :=
  match rd with
  | None => Ok f
  | Some fr =>
      let faces := faces_of (_cfg f) fr in
      let faces := sort_faces faces in
      publish f faces (fr_rgb fr)
  end.

(** The start of [_run]: the camera is opened, or the worker returns. *)
Definition run_open (f : t) (opened : list bool) : t :=
  match _open_camera (_enabled f) opened with
  | Ok _ => set_thread f Looping
  | Raise _ => set_thread f Finished
  end.

(** One turn of the loop: the stop test, then the body. *)
Definition run_turn (f : t) (rd : option frame) : result t :=
  if _stop f then Ok (set_thread f Finished)
  else loop_body f rd.

(** [_run] when nothing else touches the object meanwhile: one loop turn
    per read, until the thread leaves the loop or the reads are used up. *)
Fixpoint _run_loop (f : t) (reads : list (option frame)) : result t :=
  match reads with
  | [] => Ok f
  | rd :: rest =>
      let* f' := run_turn f rd in
      match _thread f' with
      | Looping => _run_loop f' rest
      | _ => Ok f'
      end
  end.

Definition _run (f : t) (opened : list bool) (reads : list (option frame)) : result t :=
  let f := run_open f opened in
  match _thread f with
  | Looping => _run_loop f reads
  | _ => Ok f
  end.

(** *** Runs

    What happens to an object after its construction: API calls of the
    consumer and steps of the worker thread, interleaved.  Each event
    holds the lock for its whole effect, as the source does. *)
Inductive event : Type :=
| CallStart
| CallStop
| CallConsume (i : Z) (now : Q)     (* consume_rising_edge(i) at time now *)
| WorkerOpen (opened : list bool)   (* the worker reaches _open_camera() *)
| WorkerTurn (rd : option frame).   (* the worker runs one loop turn *)

(** The object after an event.  A call that raises leaves the object as
    its method left it.  [None] when the worker is not at that point of
    [_run] (or when the loop turn raises, which ends the thread; by
    [multi_publish_ok] below a turn never does). *)
Definition step (f : t) (ev : event) : option t :=
  match ev with
  | CallStart => Some (snd (start f))
  | CallStop => Some (snd (stop f))
  | CallConsume i now => Some (snd (consume_rising_edge i now f))
  | WorkerOpen opened =>
      match _thread f with
      | Started => Some (run_open f opened)
      | _ => None
      end
  | WorkerTurn rd =>
      match _thread f with
      | Looping => match run_turn f rd with Ok f' => Some f' | Raise _ => None end
      | _ => None
      end
  end.

Fixpoint run (f : t) (evs : list event) : option t :=
  match evs with
  | [] => Some f
  | ev :: rest =>
      match step f ev with
      | Some f' => run f' rest
      | None => None
      end
  end.

Definition reachable (f : t) : Prop :=
  exists deps_ok cfg evs, run (__init__ deps_ok cfg) evs = Some f.

(** No camera can be opened whenever the worker tries. *)
Definition no_camera (evs : list event) : Prop :=
  forall opened, In (WorkerOpen opened) evs -> first_opened opened 0 = None.

End MultiTongueSwitch.

Module TongueSwitch.

Record t : Type := {
  _cfg : config;
  _state : bool;
  _prev_state : bool;
  _last_event_time : Q;
  _direction : option direction_label;
  _preview : option image;
  _stop : bool;
  _thread : thread_state
}.

Definition __init__ (cfg : config) : t :=
  {| _cfg := cfg;
     _state := false;
     _prev_state := false;
     _last_event_time := 0%Q;
     _direction := None;
     _preview := None;
     _stop := false;
     _thread := NotStarted |}.

Definition set_thread (f : t) (v : thread_state) : t :=
  {| _cfg := _cfg f; _state := _state f; _prev_state := _prev_state f;
     _last_event_time := _last_event_time f; _direction := _direction f;
     _preview := _preview f; _stop := _stop f; _thread := v |}.

Definition set_stop (f : t) (v : bool) : t :=
  {| _cfg := _cfg f; _state := _state f; _prev_state := _prev_state f;
     _last_event_time := _last_event_time f; _direction := _direction f;
     _preview := _preview f; _stop := v; _thread := _thread f |}.

(** *** API *)

Definition start : call t unit :=
  do th <- read _thread;
  do th' <- lift (thread_start th);
  write (fun f => set_thread f th').

Definition stop : call t unit :=
  do _u <- write (fun f => set_stop f true);
  do th <- read _thread;
  lift (thread_join th).

Definition get_state (f : t) : bool := _state f.

Definition get_direction (f : t) : option direction_label := _direction f.

(** [now] is the value of [time.time()] read by the call. *)
Definition consume_rising_edge (f : t) (now : Q) : bool * t :=
  if _state f && negb (_prev_state f)
     && Qgtb (now - _last_event_time f) (debounce_s (_cfg f))
  then
    (true,
     {| _cfg := _cfg f; _state := _state f; _prev_state := true;
        _last_event_time := now; _direction := _direction f;
        _preview := _preview f; _stop := _stop f; _thread := _thread f |})
  else
    (false,
     {| _cfg := _cfg f; _state := _state f; _prev_state := _state f;
        _last_event_time := _last_event_time f; _direction := _direction f;
        _preview := _preview f; _stop := _stop f; _thread := _thread f |}).

Definition get_preview_rgb (f : t) : option image :=
  match _preview f with
  | None => None
  | Some img => Some img
  end.

(** *** Worker *)

(** [tongue_present] and [direction] at the end of the frame analysis:
    only [res.multi_face_landmarks[0]] is looked at. *)
Definition reading (cfg : config) (fr : frame) : bool * option direction_label :=
  match fr_landmarks fr with
  | [] => (false, None)
  | d :: _ =>
      if box_ok (fr_w fr) (fr_h fr) d then
        if masks_ok d then
          (tongue_present cfg d, face_direction cfg (fr_w fr) (fr_h fr) d)
        else (false, None)
      else (false, None)
  end.

(** One pass through the loop body after a read; [None] is a failed read. *)
Definition loop_body (f : t) (rd : option frame) : t :=
  match rd with
  | None => f
  | Some fr =>
      let '(present, dir) := reading (_cfg f) fr in
      {| _cfg := _cfg f; _state := present; _prev_state := _prev_state f;
         _last_event_time := _last_event_time f; _direction := dir;
         _preview := Some (fr_rgb fr); _stop := _stop f; _thread := _thread f |}
  end.

Definition run_open (f : t) (opened : list bool) : t :=
  match _open_camera true opened with
  | Ok _ => set_thread f Looping
  | Raise _ => set_thread f Finished
  end.

Definition run_turn (f : t) (rd : option frame) : t :=
  if _stop f then set_thread f Finished
  else loop_body f rd.

Fixpoint _run_loop (f : t) (reads : list (option frame)) : t :=
  match reads with
  | [] => f
  | rd :: rest =>
      let f' := run_turn f rd in
      match _thread f' with
      | Looping => _run_loop f' rest
      | _ => f'
      end
  end.

Definition _run (f : t) (opened : list bool) (reads : list (option frame)) : t :=
  let f := run_open f opened in
  match _thread f with
  | Looping => _run_loop f reads
  | _ => f
  end.

(** *** Runs *)

Inductive event : Type :=
| CallStart
| CallStop
| CallConsume (now : Q)
| WorkerOpen (opened : list bool)
| WorkerTurn (rd : option frame).

Definition step (f : t) (ev : event) : option t :=
  match ev with
  | CallStart => Some (snd (start f))
  | CallStop => Some (snd (stop f))
  | CallConsume now => Some (snd (consume_rising_edge f now))
  | WorkerOpen opened =>
      match _thread f with
      | Started => Some (run_open f opened)
      | _ => None
      end
  | WorkerTurn rd =>
      match _thread f with
      | Looping => Some (run_turn f rd)
      | _ => None
      end
  end.

Fixpoint run (f : t) (evs : list event) : option t :=
  match evs with
  | [] => Some f
  | ev :: rest =>
      match step f ev with
      | Some f' => run f' rest
      | None => None
      end
  end.

Definition reachable (f : t) : Prop :=
  exists cfg evs, run (__init__ cfg) evs = Some f.

Definition no_camera (evs : list event) : Prop :=
  forall opened, In (WorkerOpen opened) evs -> first_opened opened 0 = None.

End TongueSwitch.

(** ** Statements of the specification *)

(** Direction classification as the specification words it: CENTER inside
    the dead zone, else the axis of larger magnitude decides, the sign
    gives the label, and a tie goes to the horizontal axis. *)
Definition classify_spec (dx dy dead_px : Z) : direction_label :=
  if (Z.abs dx <? dead_px) && (Z.abs dy <? dead_px) then CENTER
  else if Z.abs dy <? Z.abs dx then (if 0 <? dx then RIGHT else LEFT)
  else if Z.abs dx <? Z.abs dy then (if 0 <? dy then DOWN else UP)
  else (if 0 <? dx then RIGHT else LEFT).

(** The detector is built with [max_num_faces=self._maxp]: it hands back
    at most [max_players] entries per frame. *)
Definition detector_capped (cfg : config) (fr : frame) : Prop :=
  (length (fr_landmarks fr) <= max_players cfg)%nat.



(** All subjects detected in a frame: the faces of all its entries. *)
Definition subjects (cfg : config) (fr : frame) : list face :=
  omap (face_of cfg (fr_w fr) (fr_h fr)) (fr_landmarks fr).

(** The order [faces.sort] sorts by. *)
Definition face_le (a b : face) : Prop := mx a <= mx b.

(** The number of subjects of [l] strictly to the left of [fc]. *)
Definition rank_in (l : list face) (fc : face) : nat :=
  length (List.filter (fun g => mx g <? mx fc) l).

(** The same frame with the landmark list cut after [n] entries. *)
Definition truncate_frame (n : nat) (fr : frame) : frame :=
  {| fr_w := fr_w fr; fr_h := fr_h fr;
     fr_landmarks := take n (fr_landmarks fr); fr_rgb := fr_rgb fr |}.

(** ** Invariants of the two-player object *)

Definition multi_shape (f : MultiTongueSwitch.t) : Prop :=
  let n := max_players (MultiTongueSwitch._cfg f) in
  length (MultiTongueSwitch._state f) = n /\
  length (MultiTongueSwitch._prev_state f) = n /\
  length (MultiTongueSwitch._last_event_time f) = n /\
  length (MultiTongueSwitch._direction f) = n.

(** The fields the publish loop leaves alone. *)
Definition multi_same_edge_fields (f f' : MultiTongueSwitch.t) : Prop :=
  MultiTongueSwitch._enabled f' = MultiTongueSwitch._enabled f /\
  MultiTongueSwitch._cfg f' = MultiTongueSwitch._cfg f /\
  MultiTongueSwitch._prev_state f' = MultiTongueSwitch._prev_state f /\
  MultiTongueSwitch._last_event_time f' = MultiTongueSwitch._last_event_time f /\
  MultiTongueSwitch._stop f' = MultiTongueSwitch._stop f /\
  MultiTongueSwitch._thread f' = MultiTongueSwitch._thread f.

(** Nothing was ever published. *)
Definition multi_idle (f : MultiTongueSwitch.t) : Prop :=
  let n := max_players (MultiTongueSwitch._cfg f) in
  MultiTongueSwitch._state f = replicate n false /\
  MultiTongueSwitch._prev_state f = replicate n false /\
  MultiTongueSwitch._direction f = replicate n None /\
  MultiTongueSwitch._preview f = None.

Definition single_idle (f : TongueSwitch.t) : Prop :=
  TongueSwitch._state f = false /\
  TongueSwitch._prev_state f = false /\
  TongueSwitch._direction f = None /\
  TongueSwitch._preview f = None.

(** Nothing was published and the worker is not in its loop. *)
Definition multi_quiet (f : MultiTongueSwitch.t) : Prop :=
  multi_shape f /\ multi_idle f /\
  MultiTongueSwitch._thread f <> Looping /\
  (MultiTongueSwitch._enabled f = false -> MultiTongueSwitch._thread f = NotStarted).

Definition single_quiet (f : TongueSwitch.t) : Prop :=
  single_idle f /\ TongueSwitch._thread f <> Looping.

(** In every slot, the direction is absent exactly when the state is
    false. *)
Definition multi_coherent (f : MultiTongueSwitch.t) : Prop :=
  forall (n : nat) (s : bool) (d : option direction_label),
    MultiTongueSwitch._state f !! n = Some s ->
    MultiTongueSwitch._direction f !! n = Some d ->
    (d = None <-> s = false).

Definition single_coherent (f : TongueSwitch.t) : Prop :=
  TongueSwitch._direction f = None <-> TongueSwitch._state f = false.

(** [i] is a slot number Python accepts for a list of [n] slots. *)
Definition slot_index (n : nat) (i : Z) : Prop := - Z.of_nat n <= i < Z.of_nat n.

(** ** Sample inputs *)

(** A [wd] x [ht] filled rectangle with the 6-pixel margin of the mouth
    box around it; [notch c depth] leaves column [c] of the rectangle
    empty over its first [depth] rows. *)
Definition box_mask (wd ht : Z) (notch : option (Z * Z)) : mask :=
  map (fun r => map (fun c =>
         let r := Z.of_nat r in
         let c := Z.of_nat c in
         (6 <=? r) && (r <? 6 + ht) && (6 <=? c) && (c <? 6 + wd)
         && match notch with
            | Some (nc, depth) => negb ((c =? 6 + nc) && (r <? 6 + depth))
            | None => true
            end)
       (seq 0 (Z.to_nat (wd + 12))))
    (seq 0 (Z.to_nat (ht + 12))).

Definition flat_hsv (wd ht : Z) (px : hsv_pixel) : hsv_image :=
  map (fun _ => map (fun _ => px) (seq 0 (Z.to_nat (wd + 12)))) (seq 0 (Z.to_nat (ht + 12))).

Definition red_px : hsv_pixel := (5, 200, 200).
Definition grey_px : hsv_pixel := (90, 10, 128).

(** A 9 x 9 mouth whose bounding box starts at column [x], open by 10
    pixels, filled with [px]. *)
Definition mouth_at (x : Z) (px : hsv_pixel) : detection :=
  {| det_x := x; det_y := 100; det_ww := 9; det_hh := 9;
     det_up_y := 100; det_lo_y := 110;
     det_hsv := flat_hsv 9 9 px;
     det_mouth := box_mask 9 9 None |}.

(** A mouth polygon shaped like a horseshoe: (0,0) (2,0) (2,22) (4,22)
    (4,0) (6,0) (6,23) (0,23), every pixel of the region red. *)
Definition horseshoe : detection :=
  {| det_x := 100; det_y := 100; det_ww := 7; det_hh := 24;
     det_up_y := 100; det_lo_y := 123;
     det_hsv := flat_hsv 7 24 red_px;
     det_mouth := box_mask 7 24 (Some (3, 22)) |}.

Definition blank : image := [].

Definition frame_of (l : list detection) : frame :=
  {| fr_w := 640; fr_h := 480; fr_landmarks := l; fr_rgb := blank |}.

(** A configuration whose thresholds accept everything. *)
Definition lax_config : config :=
  {| frac_threshold := 0; min_open_px := 0; debounce_s := 12 # 100;
     dir_dead_frac := 10 # 100; max_players := 2 |}.

(** The default configuration with a debounce of 1/8 s. *)
Definition eighth_config : config :=
  {| frac_threshold := 6 # 100; min_open_px := 8; debounce_s := 1 # 8;
     dir_dead_frac := 10 # 100; max_players := 2 |}.

(** The object a run ends in (the fresh object if the run cannot happen). *)
Definition multi_after (deps_ok : bool) (cfg : config)
    (evs : list MultiTongueSwitch.event) : MultiTongueSwitch.t :=
  default (MultiTongueSwitch.__init__ deps_ok cfg)
          (MultiTongueSwitch.run (MultiTongueSwitch.__init__ deps_ok cfg) evs).

Definition single_after (cfg : config) (evs : list TongueSwitch.event) : TongueSwitch.t :=
  default (TongueSwitch.__init__ cfg) (TongueSwitch.run (TongueSwitch.__init__ cfg) evs).

(** A tongue shows at t = 1000 and is consumed, goes away, and shows again
    just before t = 1000 + 1/8, with a debounce of 1/8 s. *)
Definition boundary_run : list MultiTongueSwitch.event :=
  [ MultiTongueSwitch.CallStart;
    MultiTongueSwitch.WorkerOpen [false; true];
    MultiTongueSwitch.WorkerTurn (Some (frame_of [mouth_at 300 red_px]));
    MultiTongueSwitch.CallConsume 0 1000;
    MultiTongueSwitch.WorkerTurn (Some (frame_of []));
    MultiTongueSwitch.CallConsume 0 (16001 # 16);
    MultiTongueSwitch.WorkerTurn (Some (frame_of [mouth_at 300 red_px])) ].

Definition boundary_object : MultiTongueSwitch.t :=
  multi_after true eighth_config boundary_run.

(** A tongue shows for the first time. *)
Definition first_show_run : list MultiTongueSwitch.event :=
  [ MultiTongueSwitch.CallStart;
    MultiTongueSwitch.WorkerOpen [true];
    MultiTongueSwitch.WorkerTurn (Some (frame_of [mouth_at 300 red_px])) ].

Definition first_show_object : MultiTongueSwitch.t :=
  multi_after true default_config first_show_run.

(** ... and the consumer polls slot 0 at t = 1000; or the next frame is
    empty. *)
Definition first_show_consumed : MultiTongueSwitch.t :=
  multi_after true default_config
    (first_show_run ++ [MultiTongueSwitch.CallConsume 0 1000]).

Definition first_show_gone : MultiTongueSwitch.t :=
  multi_after true default_config
    (first_show_run ++ [MultiTongueSwitch.WorkerTurn (Some (frame_of []))]).

(** The worker has opened the camera; then a frame shows a closed mouth on
    the right and a tongue on the left, listed in that order. *)
Definition looping_object : MultiTongueSwitch.t :=
  multi_after true default_config
    [MultiTongueSwitch.CallStart; MultiTongueSwitch.WorkerOpen [true]].

Definition two_faces_frame : frame :=
  frame_of [mouth_at 300 grey_px; mouth_at 100 red_px].

Definition two_faces_object : MultiTongueSwitch.t :=
  multi_after true default_config
    [MultiTongueSwitch.CallStart; MultiTongueSwitch.WorkerOpen [true];
     MultiTongueSwitch.WorkerTurn (Some two_faces_frame)].

(** A closed, tongueless mouth seen under the thresholds that accept
    everything. *)
Definition lax_object : MultiTongueSwitch.t :=
  multi_after true lax_config
    [MultiTongueSwitch.CallStart; MultiTongueSwitch.WorkerOpen [true];
     MultiTongueSwitch.WorkerTurn (Some (frame_of [mouth_at 300 grey_px]))].

Definition single_first_show_run : list TongueSwitch.event :=
  [ TongueSwitch.CallStart;
    TongueSwitch.WorkerOpen [true];
    TongueSwitch.WorkerTurn (Some (frame_of [mouth_at 300 red_px])) ].

Definition single_first_show_object : TongueSwitch.t :=
  single_after default_config single_first_show_run.

(** The worker publishes a frame, then the consumer polls, once per entry;
    the answers of the polls. *)
Fixpoint poll_each_frame (f : TongueSwitch.t) (l : list (frame * Q)) : list bool :=
  match l with
  | [] => []
  | (fr, now) :: rest =>
      let f := TongueSwitch.loop_body f (Some fr) in
      let '(b, f) := TongueSwitch.consume_rising_edge f now in
      b :: poll_each_frame f rest
  end.

Definition tongue_in : frame := frame_of [mouth_at 300 red_px].
Definition tongue_out_of_sight : frame := frame_of [].



(** * Properties *)

(** ** The model on small inputs *)

Example py_get_from_the_end : py_get [10; 20; 30] (-1) = Ok 30.
Proof. reflexivity. Qed.

Example py_get_past_the_end : py_get [10; 20; 30] 3 = Raise IndexError.
Proof. reflexivity. Qed.

Example py_set_from_the_end : py_set [10; 20; 30] (-3) 7 = Ok [7; 20; 30].
Proof. reflexivity. Qed.

Example classify_tie_goes_horizontal :
  _classify_direction 5 5 0 0 3 = RIGHT /\ _classify_direction (-5) 5 0 0 3 = LEFT.
Proof. split; reflexivity. Qed.

Example classify_dead_zone_is_strict :
  _classify_direction 2 0 0 0 3 = CENTER /\ _classify_direction 3 0 0 0 3 = RIGHT.
Proof. split; reflexivity. Qed.

Example median_drops_a_speck :
  count_px (medianBlur5 (box_mask 1 1 None)) = 0.
Proof. vm_compute. reflexivity. Qed.

Example opening_keeps_a_block :
  morph_open3 (box_mask 3 3 None) = box_mask 3 3 None.
Proof. vm_compute. reflexivity. Qed.

Example opening_drops_a_line :
  count_px (morph_open3 (box_mask 9 2 None)) = 0.
Proof. vm_compute. reflexivity. Qed.

Example sort_keeps_the_order_of_equal_centers :
  sort_faces
    [ {| mx := 5; my := 0; tongue := true; direction := None |};
      {| mx := 5; my := 0; tongue := false; direction := None |};
      {| mx := 1; my := 0; tongue := false; direction := None |} ]
  = [ {| mx := 1; my := 0; tongue := false; direction := None |};
      {| mx := 5; my := 0; tongue := true; direction := None |};
      {| mx := 5; my := 0; tongue := false; direction := None |} ].
Proof. reflexivity. Qed.

(** The scenario of the specification: presence F F T T T F T over seven
    frames one debounce period apart, each polled once. *)
Example seven_frames :
  poll_each_frame (TongueSwitch.__init__ default_config)
    [ (tongue_out_of_sight, 12 # 100); (tongue_out_of_sight, 24 # 100);
      (tongue_in, 36 # 100); (tongue_in, 48 # 100); (tongue_in, 60 # 100);
      (tongue_out_of_sight, 72 # 100); (tongue_in, 84 # 100) ]
  = [false; false; true; false; false; false; true].
Proof. vm_compute. reflexivity. Qed.

(** ** Python indexing *)

Lemma py_norm_lt (len : nat) (i : Z) (n : nat) :
  py_norm len i = Some n -> (n < len)%nat.
Proof.
  unfold py_norm. intros H.
  destruct ((0 <=? i) && (i <? Z.of_nat len)) eqn:E1.
  - apply andb_true_iff in E1 as [H1 H2]. inversion H; subst. lia.
  - destruct ((- Z.of_nat len <=? i) && (i <? 0)) eqn:E2; [|discriminate].
    apply andb_true_iff in E2 as [H1 H2]. inversion H; subst. lia.
Qed.

Lemma py_norm_in_range (len : nat) (i : Z) :
  slot_index len i -> exists n, py_norm len i = Some n /\ (n < len)%nat.
Proof.
  unfold slot_index, py_norm. intros [Hlo Hhi].
  destruct (Z.leb_spec 0 i).
  - destruct (Z.ltb_spec i (Z.of_nat len)); [|lia]. simpl. eexists; split; [reflexivity|lia].
  - simpl. destruct (Z.leb_spec (- Z.of_nat len) i); [|lia].
    destruct (Z.ltb_spec i 0); [|lia]. simpl. eexists; split; [reflexivity|lia].
Qed.

Lemma py_norm_out_of_range (len : nat) (i : Z) :
  ~ slot_index len i -> py_norm len i = None.
Proof.
  unfold slot_index, py_norm. intros Hn.
  destruct (Z.leb_spec 0 i); destruct (Z.ltb_spec i (Z.of_nat len)); simpl;
    try lia;
    destruct (Z.leb_spec (- Z.of_nat len) i); destruct (Z.ltb_spec i 0); simpl;
    try reflexivity; lia.
Qed.

Lemma py_get_norm {A : Type} (l : list A) (i : Z) (n : nat) :
  py_norm (length l) i = Some n ->
  exists a, py_get l i = Ok a /\ l !! n = Some a.
Proof.
  intros H. unfold py_get. rewrite H.
  destruct (lookup_lt_is_Some_2 l n (py_norm_lt _ _ _ H)) as [a Ha].
  rewrite Ha. eauto.
Qed.

Lemma py_set_norm {A : Type} (l : list A) (i : Z) (n : nat) (a : A) :
  py_norm (length l) i = Some n -> py_set l i a = Ok (<[n := a]> l).
Proof. intros H. unfold py_set. now rewrite H. Qed.

Lemma py_get_out_of_range {A : Type} (l : list A) (i : Z) :
  ~ slot_index (length l) i -> py_get l i = Raise IndexError.
Proof. intros H. unfold py_get. now rewrite (py_norm_out_of_range _ _ H). Qed.

(** ** Float comparisons *)

Lemma Qgtb_true (a b : Q) : Qgtb a b = true <-> (b < a)%Q.
Proof.
  unfold Qgtb. rewrite negb_true_iff. split.
  - intros H. apply Qnot_le_lt. intros Hle. apply Qle_bool_iff in Hle. congruence.
  - intros H. destruct (Qle_bool a b) eqn:E; [|reflexivity].
    apply Qle_bool_iff in E. exfalso. exact (Qlt_not_le _ _ H E).
Qed.

Lemma Qgeb_true (a b : Q) : Qgeb a b = true <-> (b <= a)%Q.
Proof. unfold Qgeb. apply Qle_bool_iff. Qed.

(** ** Direction classification *)

Lemma classify_direction_refines (cx cy mx my dead_px : Z) :
  _classify_direction cx cy mx my dead_px = classify_spec (cx - mx) (cy - my) dead_px.
Proof.
  unfold _classify_direction, classify_spec. cbv zeta.
  destruct ((Z.abs (cx - mx) <? dead_px) && (Z.abs (cy - my) <? dead_px)); [reflexivity|].
  unfold Z.geb, Z.gtb, Z.ltb.
  rewrite (Z.compare_antisym (cx - mx) 0), (Z.compare_antisym (cy - my) 0).
  rewrite (Z.compare_antisym (Z.abs (cx - mx)) (Z.abs (cy - my))).
  destruct (Z.abs (cx - mx) ?= Z.abs (cy - my));
    destruct (cx - mx ?= 0); destruct (cy - my ?= 0); reflexivity.
Qed.

(** C7.  Inside the dead zone (both offsets strictly below [dead_px]) the
    label is CENTER; otherwise the axis with the larger absolute offset
    decides, RIGHT for a positive horizontal offset and LEFT else, DOWN for
    a positive vertical offset and UP else, and offsets of equal magnitude
    are decided by the horizontal axis. *)
Theorem classify_direction_cases (cx cy mx my dead_px : Z) :
  let dx := cx - mx in
  let dy := cy - my in
  let label := _classify_direction cx cy mx my dead_px in
  (Z.abs dx < dead_px /\ Z.abs dy < dead_px -> label = CENTER) /\
  (~ (Z.abs dx < dead_px /\ Z.abs dy < dead_px) ->
     (Z.abs dx > Z.abs dy -> label = if 0 <? dx then RIGHT else LEFT) /\
     (Z.abs dx < Z.abs dy -> label = if 0 <? dy then DOWN else UP) /\
     (Z.abs dx = Z.abs dy -> label = if 0 <? dx then RIGHT else LEFT)) /\
  label = classify_spec dx dy dead_px.
Proof.
  cbv zeta. split; [|split].
  - intros [H1 H2]. unfold _classify_direction. cbv zeta.
    apply Z.ltb_lt in H1, H2. now rewrite H1, H2.
  - intros Hout. rewrite classify_direction_refines. unfold classify_spec.
    destruct (Z.ltb_spec (Z.abs (cx - mx)) dead_px);
      destruct (Z.ltb_spec (Z.abs (cy - my)) dead_px); simpl;
      try (exfalso; apply Hout; split; assumption);
      (repeat split; intros Hc;
       destruct (Z.ltb_spec (Z.abs (cy - my)) (Z.abs (cx - mx)));
       destruct (Z.ltb_spec (Z.abs (cx - mx)) (Z.abs (cy - my)));
       try reflexivity; lia).
  - apply classify_direction_refines.
Qed.

Lemma classify_direction_cases_witness :
  _classify_direction 3 0 0 0 5 = CENTER /\
  _classify_direction 7 (-7) 0 0 5 = RIGHT /\
  _classify_direction 0 (-9) 0 0 5 = UP.
Proof.
  pose proof (classify_direction_cases 3 0 0 0 5) as [H1 _].
  pose proof (classify_direction_cases 7 (-7) 0 0 5) as [_ [H2 _]].
  pose proof (classify_direction_cases 0 (-9) 0 0 5) as [_ [H3 _]].
  cbv zeta in H1, H2, H3.
  split; [|split].
  - apply H1. simpl. lia.
  - assert (Hout : ~ (Z.abs (7 - 0) < 5 /\ Z.abs (-7 - 0) < 5)) by (simpl; lia).
    destruct (H2 Hout) as [_ [_ Heq]]. apply Heq. reflexivity.
  - assert (Hout : ~ (Z.abs (0 - 0) < 5 /\ Z.abs (-9 - 0) < 5)) by (simpl; lia).
    destruct (H3 Hout) as [_ [Hlt _]]. apply Hlt. simpl. lia.
Defined.

(** ** The edge-triggered read *)

Import MultiTongueSwitch(_enabled, _cfg, _state, _prev_state, _last_event_time,
                         _direction, _preview, _stop, _thread).

(** What [consume_rising_edge(i)] does on an enabled object when [i]
    denotes position [n]. *)
Lemma multi_consume_eq (f : MultiTongueSwitch.t) (i : Z) (now : Q) (n : nat) :
  _enabled f = true ->
  multi_shape f ->
  py_norm (max_players (_cfg f)) i = Some n ->
  exists s p last,
    _state f !! n = Some s /\
    _prev_state f !! n = Some p /\
    _last_event_time f !! n = Some last /\
    MultiTongueSwitch.consume_rising_edge i now f =
      if s && negb p && Qgtb (now - last) (debounce_s (_cfg f)) then
        (Ok true,
         MultiTongueSwitch.set_last_event_time
           (MultiTongueSwitch.set_prev_state f (<[n := true]> (_prev_state f)))
           (<[n := now]> (_last_event_time f)))
      else
        (Ok false, MultiTongueSwitch.set_prev_state f (<[n := s]> (_prev_state f))).
Proof.
  intros Hen (Hs & Hp & Hl & Hd) Hn.
  assert (Hns : py_norm (length (_state f)) i = Some n) by now rewrite Hs.
  assert (Hnp : py_norm (length (_prev_state f)) i = Some n) by now rewrite Hp.
  assert (Hnl : py_norm (length (_last_event_time f)) i = Some n) by now rewrite Hl.
  destruct (py_get_norm _ _ _ Hns) as (s & Gs & Ls).
  destruct (py_get_norm _ _ _ Hnp) as (p & Gp & Lp).
  destruct (py_get_norm _ _ _ Hnl) as (last & Gl & Ll).
  exists s, p, last. repeat split; try assumption.
  unfold MultiTongueSwitch.consume_rising_edge, MultiTongueSwitch.item,
    MultiTongueSwitch.set_item, and_then, read, lift, write, ret.
  rewrite Hen. cbn [negb]. rewrite Gs.
  destruct s; cbn [andb].
  - rewrite Gp. destruct p; cbn [negb andb].
    + rewrite Gs. now rewrite (py_set_norm _ _ _ _ Hnp).
    + rewrite Gl.
      destruct (Qgtb (now - last) (debounce_s (_cfg f))).
      * rewrite (py_set_norm _ _ _ _ Hnp). cbn [_last_event_time MultiTongueSwitch.set_prev_state].
        now rewrite (py_set_norm _ _ _ _ Hnl).
      * rewrite Gs. now rewrite (py_set_norm _ _ _ _ Hnp).
  - rewrite Gs. now rewrite (py_set_norm _ _ _ _ Hnp).
Qed.

(** The three ways a call of [consume_rising_edge] can go. *)
Lemma multi_consume_cases (f : MultiTongueSwitch.t) (i : Z) (now : Q) :
  multi_shape f ->
  (_enabled f = false /\
   MultiTongueSwitch.consume_rising_edge i now f = (Ok false, f)) \/
  (_enabled f = true /\ ~ slot_index (max_players (_cfg f)) i /\
   MultiTongueSwitch.consume_rising_edge i now f = (Raise IndexError, f)) \/
  (_enabled f = true /\
   exists n s p last,
     py_norm (max_players (_cfg f)) i = Some n /\
     _state f !! n = Some s /\
     _prev_state f !! n = Some p /\
     _last_event_time f !! n = Some last /\
     MultiTongueSwitch.consume_rising_edge i now f =
       if s && negb p && Qgtb (now - last) (debounce_s (_cfg f)) then
         (Ok true,
          MultiTongueSwitch.set_last_event_time
            (MultiTongueSwitch.set_prev_state f (<[n := true]> (_prev_state f)))
            (<[n := now]> (_last_event_time f)))
       else
         (Ok false, MultiTongueSwitch.set_prev_state f (<[n := s]> (_prev_state f)))).
Proof.
  intros Hshape. destruct (_enabled f) eqn:Hen.
  - right. destruct (py_norm (max_players (_cfg f)) i) as [n|] eqn:Hn.
    + right. split; [reflexivity|].
      destruct (multi_consume_eq f i now n Hen Hshape Hn) as (s & p & last & H).
      exists n, s, p, last. tauto.
    + left. split; [reflexivity|]. split.
      * intros Hi. destruct (py_norm_in_range _ _ Hi) as (n & Hn' & _). congruence.
      * unfold MultiTongueSwitch.consume_rising_edge, MultiTongueSwitch.item,
          and_then, read, lift, ret.
        rewrite Hen. cbn [negb]. unfold py_get.
        destruct Hshape as (Hs & _). now rewrite Hs, Hn.
  - left. split; [reflexivity|].
    unfold MultiTongueSwitch.consume_rising_edge, and_then, read, ret.
    now rewrite Hen.
Qed.

(** ** The publish step *)

Lemma py_norm_nat (len i : nat) :
  (i < len)%nat -> py_norm len (Z.of_nat i) = Some i.
Proof.
  intros H. unfold py_norm.
  destruct (Z.leb_spec 0 (Z.of_nat i)); [|lia].
  destruct (Z.ltb_spec (Z.of_nat i) (Z.of_nat len)); [|lia].
  simpl. now rewrite Nat2Z.id.
Qed.

Lemma multi_publish_slots_ok (faces : list face) (idx : list nat) :
  forall f : MultiTongueSwitch.t,
    multi_shape f ->
    (forall i, In i idx -> (i < max_players (_cfg f))%nat) ->
    exists f',
      MultiTongueSwitch.publish_slots faces idx f = Ok f' /\
      multi_shape f' /\
      multi_same_edge_fields f f' /\
      _preview f' = _preview f /\
      (forall j, In j idx ->
         _state f' !! j = Some (fst (MultiTongueSwitch.slot_values faces j)) /\
         _direction f' !! j = Some (snd (MultiTongueSwitch.slot_values faces j))) /\
      (forall j, ~ In j idx ->
         _state f' !! j = _state f !! j /\ _direction f' !! j = _direction f !! j).
Proof.
  induction idx as [|i rest IH]; intros f Hshape Hidx.
  - exists f. simpl. repeat split; try assumption; try reflexivity; try tauto.
    all: apply Hshape.
  - destruct Hshape as (Hs & Hp & Hl & Hd).
    assert (Hi : (i < max_players (_cfg f))%nat) by (apply Hidx; now left).
    simpl. destruct (MultiTongueSwitch.slot_values faces i) as [s d] eqn:Hsv.
    rewrite (py_set_norm (_state f) (Z.of_nat i) i s)
      by (apply py_norm_nat; now rewrite Hs).
    cbn [bind MultiTongueSwitch.set_state _direction].
    rewrite (py_set_norm (_direction f) (Z.of_nat i) i d)
      by (apply py_norm_nat; now rewrite Hd).
    cbn [bind].
    set (f1 := MultiTongueSwitch.set_direction _ _).
    assert (Hshape1 : multi_shape f1).
    { unfold multi_shape, f1. simpl. rewrite !length_insert. tauto. }
    destruct (IH f1 Hshape1) as (f' & Hrun & Hshape' & Hsame & Hprev & Hin & Hout).
    { intros j Hj. unfold f1. simpl. apply Hidx. now right. }
    exists f'. split; [exact Hrun|]. split; [exact Hshape'|].
    split; [exact Hsame|]. split; [exact Hprev|]. split.
    + intros j [<-|Hj]; [|now apply Hin].
      destruct (in_dec Nat.eq_dec i rest) as [Hir|Hir]; [now apply Hin|].
      destruct (Hout i Hir) as [E1 E2]. rewrite E1, E2. unfold f1. simpl.
      rewrite !list_lookup_insert_eq by lia. rewrite Hsv. now split.
    + intros j Hj.
      assert (Hne : i <> j) by (intros ->; apply Hj; now left).
      assert (Hnr : ~ In j rest) by (intros H; apply Hj; now right).
      destruct (Hout j Hnr) as [E1 E2]. rewrite E1, E2. unfold f1. simpl.
      now rewrite !list_lookup_insert_ne by assumption.
Qed.

(** The publish step never fails on a well-shaped object, and writes every
    slot below [max_players]. *)
Lemma multi_publish_ok (f : MultiTongueSwitch.t) (faces : list face) (rgb : image) :
  multi_shape f ->
  exists f',
    MultiTongueSwitch.publish f faces rgb = Ok f' /\
    multi_shape f' /\
    multi_same_edge_fields f f' /\
    _preview f' = Some rgb /\
    (forall j, (j < max_players (_cfg f))%nat ->
       _state f' !! j = Some (fst (MultiTongueSwitch.slot_values faces j)) /\
       _direction f' !! j = Some (snd (MultiTongueSwitch.slot_values faces j))).
Proof.
  intros Hshape.
  destruct (multi_publish_slots_ok faces (seq 0 (max_players (_cfg f))) f Hshape)
    as (f1 & Hrun & Hshape1 & Hsame & Hprev & Hin & _).
  { intros i Hi. apply in_seq in Hi. lia. }
  exists (MultiTongueSwitch.set_preview f1 (Some rgb)).
  unfold MultiTongueSwitch.publish. rewrite Hrun. cbn [bind].
  split; [reflexivity|]. split; [exact Hshape1|]. split; [exact Hsame|].
  split; [reflexivity|].
  intros j Hj. apply Hin. apply in_seq. lia.
Qed.

(** ** Invariants along a run *)

Lemma multi_init_shape (deps_ok : bool) (cfg : config) :
  multi_shape (MultiTongueSwitch.__init__ deps_ok cfg).
Proof. unfold multi_shape. simpl. rewrite !length_replicate. tauto. Qed.

Lemma multi_init_idle (deps_ok : bool) (cfg : config) :
  multi_idle (MultiTongueSwitch.__init__ deps_ok cfg).
Proof. unfold multi_idle. simpl. tauto. Qed.

(** The two outcomes of [start()] and of [stop()]. *)
Lemma multi_start_cases (f : MultiTongueSwitch.t) :
  MultiTongueSwitch.start f =
    if _enabled f then
      match _thread f with
      | NotStarted => (Ok tt, MultiTongueSwitch.set_thread f Started)
      | _ => (Raise RuntimeError, f)
      end
    else (Ok tt, f).
Proof.
  unfold MultiTongueSwitch.start, and_then, read, lift, write, ret.
  destruct (_enabled f); [|reflexivity]. now destruct (_thread f).
Qed.

Lemma multi_stop_cases (f : MultiTongueSwitch.t) :
  MultiTongueSwitch.stop f =
    if _enabled f then
      (thread_join (_thread f), MultiTongueSwitch.set_stop f true)
    else (Ok tt, f).
Proof.
  unfold MultiTongueSwitch.stop, and_then, read, lift, write, ret.
  destruct (_enabled f); [|reflexivity]. simpl. now destruct (_thread f).
Qed.

Lemma single_start_cases (f : TongueSwitch.t) :
  TongueSwitch.start f =
    match TongueSwitch._thread f with
    | NotStarted => (Ok tt, TongueSwitch.set_thread f Started)
    | _ => (Raise RuntimeError, f)
    end.
Proof.
  unfold TongueSwitch.start, and_then, read, lift, write.
  now destruct (TongueSwitch._thread f).
Qed.

Lemma single_stop_cases (f : TongueSwitch.t) :
  TongueSwitch.stop f = (thread_join (TongueSwitch._thread f), TongueSwitch.set_stop f true).
Proof.
  unfold TongueSwitch.stop, and_then, read, lift, write. simpl.
  now destruct (TongueSwitch._thread f).
Qed.

Lemma multi_step_shape (f f' : MultiTongueSwitch.t) (ev : MultiTongueSwitch.event) :
  multi_shape f ->
  MultiTongueSwitch.step f ev = Some f' ->
  multi_shape f' /\ _enabled f' = _enabled f /\ _cfg f' = _cfg f.
Proof.
  intros Hshape Hstep. destruct ev as [| |i now|opened|rd]; simpl in Hstep.
  - rewrite multi_start_cases in Hstep.
    destruct (_enabled f) eqn:Hen; [destruct (_thread f)|];
      inversion Hstep; subst; simpl; tauto.
  - rewrite multi_stop_cases in Hstep.
    destruct (_enabled f) eqn:Hen; inversion Hstep; subst; simpl; tauto.
  - inversion Hstep; subst f'. clear Hstep.
    destruct (multi_consume_cases f i now Hshape)
      as [[_ ->]|[(_ & _ & ->)|(_ & n & s & p & last & _ & _ & _ & _ & ->)]];
      try (simpl; tauto).
    destruct Hshape as (Hs & Hp & Hl & Hd).
    destruct (s && negb p && Qgtb (now - last) (debounce_s (_cfg f)));
      unfold multi_shape; simpl; rewrite ?length_insert; tauto.
  - destruct (_thread f); try discriminate. inversion Hstep; subst.
    unfold MultiTongueSwitch.run_open.
    destruct (_open_camera (_enabled f) opened); simpl; tauto.
  - destruct (_thread f); try discriminate.
    destruct (MultiTongueSwitch.run_turn f rd) as [f1|e] eqn:Ht; [|discriminate].
    inversion Hstep; subst f1. unfold MultiTongueSwitch.run_turn in Ht.
    destruct (_stop f).
    + inversion Ht; subst. simpl. tauto.
    + destruct rd as [fr|]; simpl in Ht; [|inversion Ht; subst; tauto].
      destruct (multi_publish_ok f (sort_faces (faces_of (_cfg f) fr)) (fr_rgb fr) Hshape)
        as (f2 & Hp & Hshape2 & (He & Hc & _) & _).
      rewrite Hp in Ht. inversion Ht; subst. tauto.
Qed.

Lemma multi_run_shape (evs : list MultiTongueSwitch.event) :
  forall f f' : MultiTongueSwitch.t,
    multi_shape f ->
    MultiTongueSwitch.run f evs = Some f' ->
    multi_shape f' /\ _enabled f' = _enabled f /\ _cfg f' = _cfg f.
Proof.
  induction evs as [|ev rest IH]; intros f f' Hshape Hrun; simpl in Hrun.
  - inversion Hrun; subst. tauto.
  - destruct (MultiTongueSwitch.step f ev) as [f1|] eqn:Hstep; [|discriminate].
    destruct (multi_step_shape _ _ _ Hshape Hstep) as (H1 & H2 & H3).
    destruct (IH _ _ H1 Hrun) as (H4 & H5 & H6).
    split; [exact H4|]. split; congruence.
Qed.

Lemma multi_reachable_shape (f : MultiTongueSwitch.t) :
  MultiTongueSwitch.reachable f -> multi_shape f.
Proof.
  intros (deps_ok & cfg & evs & Hrun).
  exact (proj1 (multi_run_shape evs _ _ (multi_init_shape deps_ok cfg) Hrun)).
Qed.

Lemma py_get_replicate {A : Type} (n : nat) (a : A) (i : Z) :
  slot_index n i -> py_get (replicate n a) i = Ok a.
Proof.
  intros Hi. destruct (py_norm_in_range n i Hi) as (k & Hk & Hlt).
  assert (Hk' : py_norm (length (replicate n a)) i = Some k)
    by now rewrite length_replicate.
  destruct (py_get_norm _ _ _ Hk') as (b & Hg & Hl).
  apply lookup_replicate in Hl as [-> _]. exact Hg.
Qed.

Lemma multi_set_prev_state_id (f : MultiTongueSwitch.t) :
  MultiTongueSwitch.set_prev_state f (_prev_state f) = f.
Proof. now destruct f. Qed.

(** On an object nothing was published to, the edge read never answers
    true and changes nothing. *)
Lemma multi_consume_idle (f : MultiTongueSwitch.t) (i : Z) (now : Q) :
  multi_shape f ->
  multi_idle f ->
  snd (MultiTongueSwitch.consume_rising_edge i now f) = f /\
  (slot_index (max_players (_cfg f)) i ->
   fst (MultiTongueSwitch.consume_rising_edge i now f) = Ok false).
Proof.
  intros Hshape (Hst & Hpr & _).
  destruct (multi_consume_cases f i now Hshape)
    as [[_ ->]|[(_ & Hout & ->)|(_ & n & s & p & last & _ & Ls & _ & _ & ->)]].
  - now split.
  - split; [reflexivity|]. intros Hi. contradiction.
  - rewrite Hst in Ls. apply lookup_replicate in Ls as [-> Hlt]. simpl.
    rewrite list_insert_id by (rewrite Hpr; now apply lookup_replicate).
    split; [apply multi_set_prev_state_id|reflexivity].
Qed.

Lemma multi_step_quiet (f f' : MultiTongueSwitch.t) (ev : MultiTongueSwitch.event) :
  multi_quiet f ->
  (forall opened, ev = MultiTongueSwitch.WorkerOpen opened ->
     _enabled f = false \/ first_opened opened 0 = None) ->
  MultiTongueSwitch.step f ev = Some f' ->
  multi_quiet f'.
Proof.
  intros (Hshape & Hidle & Hth & Hdis) Hcam Hstep.
  destruct ev as [| |i now|opened|rd]; simpl in Hstep.
  - rewrite multi_start_cases in Hstep.
    destruct (_enabled f) eqn:Hen.
    + destruct (_thread f) eqn:Ht; inversion Hstep; subst;
        unfold multi_quiet; simpl; rewrite ?Hen, ?Ht;
        repeat split; try apply Hshape; try apply Hidle; try discriminate;
        try assumption.
    + inversion Hstep; subst. unfold multi_quiet. rewrite Hen. tauto.
  - rewrite multi_stop_cases in Hstep.
    destruct (_enabled f) eqn:Hen; inversion Hstep; subst.
    + unfold multi_quiet. simpl. rewrite Hen.
      repeat split; try apply Hshape; try apply Hidle; try assumption;
        discriminate.
    + unfold multi_quiet. rewrite Hen. tauto.
  - inversion Hstep; subst f'.
    rewrite (proj1 (multi_consume_idle f i now Hshape Hidle)).
    unfold multi_quiet. tauto.
  - destruct (_thread f) eqn:Ht; try discriminate. inversion Hstep; subst.
    destruct (_enabled f) eqn:Hen.
    + destruct (Hcam opened eq_refl) as [Hf|Hnone]; [discriminate|].
      unfold MultiTongueSwitch.run_open, _open_camera. rewrite Hen, Hnone. simpl.
      unfold multi_quiet. simpl. rewrite Hen.
      repeat split; try apply Hshape; try apply Hidle; discriminate.
    + specialize (Hdis eq_refl). discriminate.
  - destruct (_thread f) eqn:Ht; try discriminate. now contradiction Hth.
Qed.

Lemma multi_run_quiet (evs : list MultiTongueSwitch.event) :
  forall f f' : MultiTongueSwitch.t,
    multi_quiet f ->
    _enabled f = false \/ MultiTongueSwitch.no_camera evs ->
    MultiTongueSwitch.run f evs = Some f' ->
    multi_quiet f'.
Proof.
  induction evs as [|ev rest IH]; intros f f' Hq Hcam Hrun; simpl in Hrun.
  - now inversion Hrun; subst.
  - destruct (MultiTongueSwitch.step f ev) as [f1|] eqn:Hstep; [|discriminate].
    assert (Hq1 : multi_quiet f1).
    { apply (multi_step_quiet f f1 ev Hq); [|exact Hstep].
      intros opened ->. destruct Hcam as [Hd|Hn]; [now left|].
      right. apply Hn. now left. }
    apply (IH f1 f' Hq1); [|exact Hrun].
    destruct Hcam as [Hd|Hn].
    + left. destruct Hq as (Hshape & _).
      destruct (multi_step_shape _ _ _ Hshape Hstep) as (_ & He & _). congruence.
    + right. intros opened Hin. apply Hn. now right.
Qed.

Lemma multi_init_quiet (deps_ok : bool) (cfg : config) :
  multi_quiet (MultiTongueSwitch.__init__ deps_ok cfg).
Proof.
  unfold multi_quiet. split; [apply multi_init_shape|]. split; [apply multi_init_idle|].
  simpl. split; [discriminate|reflexivity].
Qed.

(** A reachable object that is disabled was never published to. *)
Lemma multi_reachable_disabled (f : MultiTongueSwitch.t) :
  MultiTongueSwitch.reachable f -> _enabled f = false -> multi_quiet f.
Proof.
  intros (deps_ok & cfg & evs & Hrun) Hen.
  apply (multi_run_quiet evs _ f (multi_init_quiet deps_ok cfg)); [|exact Hrun].
  left. destruct (multi_run_shape evs _ _ (multi_init_shape deps_ok cfg) Hrun) as (_ & He & _).
  congruence.
Qed.


(** ** C1: the debounced one-shot read *)

Lemma multi_reachable_after (deps_ok : bool) (cfg : config)
    (evs : list MultiTongueSwitch.event) (f : MultiTongueSwitch.t) :
  MultiTongueSwitch.run (MultiTongueSwitch.__init__ deps_ok cfg) evs = Some f ->
  MultiTongueSwitch.reachable (multi_after deps_ok cfg evs).
Proof.
  intros H. exists deps_ok, cfg, evs. unfold multi_after. now rewrite H.
Qed.

Lemma single_consume_edge (f : TongueSwitch.t) (now : Q) :
  let b := fst (TongueSwitch.consume_rising_edge f now) in
  let f' := snd (TongueSwitch.consume_rising_edge f now) in
  (b = true <->
     TongueSwitch._state f = true /\ TongueSwitch._prev_state f = false /\
     (debounce_s (TongueSwitch._cfg f) < now - TongueSwitch._last_event_time f)%Q) /\
  (b = true ->
     TongueSwitch._prev_state f' = true /\ TongueSwitch._last_event_time f' = now) /\
  (b = false -> TongueSwitch._last_event_time f' = TongueSwitch._last_event_time f) /\
  TongueSwitch._prev_state f' = TongueSwitch._state f' /\
  TongueSwitch._state f' = TongueSwitch._state f.
Proof.
  cbv zeta. unfold TongueSwitch.consume_rising_edge.
  destruct (TongueSwitch._state f) eqn:Hs; destruct (TongueSwitch._prev_state f) eqn:Hp;
    destruct (Qgtb (now - TongueSwitch._last_event_time f)
                   (debounce_s (TongueSwitch._cfg f))) eqn:Hq;
    simpl; rewrite ?Hs;
    repeat split; try reflexivity; try discriminate;
    try (intros (A & B & C); try discriminate; apply Qgtb_true in C; congruence);
    try (now apply Qgtb_true).
Qed.

Lemma multi_consume_edge (f : MultiTongueSwitch.t) (i : Z) (now : Q) :
  MultiTongueSwitch.reachable f ->
  slot_index (max_players (_cfg f)) i ->
  exists b f',
    MultiTongueSwitch.consume_rising_edge i now f = (Ok b, f') /\
    (b = true <->
       py_get (_state f) i = Ok true /\ py_get (_prev_state f) i = Ok false /\
       exists last, py_get (_last_event_time f) i = Ok last /\
                    (debounce_s (_cfg f) < now - last)%Q) /\
    (b = true ->
       py_get (_prev_state f') i = Ok true /\ py_get (_last_event_time f') i = Ok now) /\
    (b = false -> _last_event_time f' = _last_event_time f) /\
    py_get (_prev_state f') i = py_get (_state f') i /\
    _state f' = _state f.
Proof.
  intros Hreach Hi.
  pose proof (multi_reachable_shape f Hreach) as Hshape.
  destruct (multi_consume_cases f i now Hshape)
    as [[Hen Heq]|[(_ & Hout & _)|(Hen & n & s & p & last & Hn & Ls & Lp & Ll & Heq)]].
  - destruct (multi_reachable_disabled f Hreach Hen) as (_ & (Hst & Hpr & _) & _).
    exists false, f. split; [exact Heq|].
    pose proof (py_get_replicate (max_players (_cfg f)) false i Hi) as Hrep.
    rewrite Hst, Hpr, Hrep.
    repeat split; try discriminate; try reflexivity.
    intros (Es & _). discriminate.
  - contradiction.
  - destruct Hshape as (Hs & Hp & Hl & Hd).
    assert (Hns : py_norm (length (_state f)) i = Some n) by now rewrite Hs.
    assert (Hnp : py_norm (length (_prev_state f)) i = Some n) by now rewrite Hp.
    assert (Hnl : py_norm (length (_last_event_time f)) i = Some n) by now rewrite Hl.
    assert (Gs : py_get (_state f) i = Ok s).
    { destruct (py_get_norm _ _ _ Hns) as (a & Ga & La). congruence. }
    assert (Gp : py_get (_prev_state f) i = Ok p).
    { destruct (py_get_norm _ _ _ Hnp) as (a & Ga & La). congruence. }
    assert (Gl : py_get (_last_event_time f) i = Ok last).
    { destruct (py_get_norm _ _ _ Hnl) as (a & Ga & La). congruence. }
    assert (Gset : forall (A : Type) (l : list A) (a : A),
              length l = max_players (_cfg f) -> py_get (<[n := a]> l) i = Ok a).
    { intros A l a Hlen.
      assert (Hk : py_norm (length (<[n := a]> l)) i = Some n)
        by now rewrite length_insert, Hlen.
      destruct (py_get_norm _ _ _ Hk) as (a' & Ga & La).
      apply py_norm_lt in Hk. rewrite length_insert in Hk.
      rewrite list_lookup_insert_eq in La by exact Hk. congruence. }
    rewrite Heq.
    destruct (s && negb p && Qgtb (now - last) (debounce_s (_cfg f))) eqn:Hfire.
    + apply andb_true_iff in Hfire as [Hsp Hq]. apply andb_true_iff in Hsp as [-> Hp'].
      apply negb_true_iff in Hp'. subst p. apply Qgtb_true in Hq.
      eexists _, _. split; [reflexivity|]. simpl.
      rewrite !Gset by assumption. rewrite Gs.
      repeat split; eauto. discriminate.
    + eexists _, _. split; [reflexivity|]. simpl.
      rewrite !Gset by assumption. rewrite Gs.
      repeat split; try discriminate; try reflexivity.
      intros (Es & Ep & last' & El & Hdue). exfalso.
      rewrite Gp in Ep. rewrite Gl in El. inversion Es; inversion Ep; inversion El; subst.
      apply Qgtb_true in Hdue. rewrite Hdue in Hfire. discriminate.
Qed.

(** C1 (amended).  On every object a program can reach and for every slot,
    [consume_rising_edge] returns true exactly when the slot's state is
    true, its previous-for-edge flag is false and MORE than [debounce_s]
    seconds lie between the call and the slot's last-edge time; a true
    return sets the flag and records the call time as the last-edge time, a
    false return leaves the last-edge times alone; after every call the
    flag equals the state just observed.  The same holds for the
    one-player class. *)
Theorem consume_rising_edge_spec :
  (forall (f : MultiTongueSwitch.t) (i : Z) (now : Q),
     MultiTongueSwitch.reachable f ->
     slot_index (max_players (_cfg f)) i ->
     exists b f',
       MultiTongueSwitch.consume_rising_edge i now f = (Ok b, f') /\
       (b = true <->
          py_get (_state f) i = Ok true /\ py_get (_prev_state f) i = Ok false /\
          exists last, py_get (_last_event_time f) i = Ok last /\
                       (debounce_s (_cfg f) < now - last)%Q) /\
       (b = true ->
          py_get (_prev_state f') i = Ok true /\
          py_get (_last_event_time f') i = Ok now) /\
       (b = false -> _last_event_time f' = _last_event_time f) /\
       py_get (_prev_state f') i = py_get (_state f') i /\
       _state f' = _state f) /\
  (forall (f : TongueSwitch.t) (now : Q),
     let b := fst (TongueSwitch.consume_rising_edge f now) in
     let f' := snd (TongueSwitch.consume_rising_edge f now) in
     (b = true <->
        TongueSwitch._state f = true /\ TongueSwitch._prev_state f = false /\
        (debounce_s (TongueSwitch._cfg f) < now - TongueSwitch._last_event_time f)%Q) /\
     (b = true ->
        TongueSwitch._prev_state f' = true /\ TongueSwitch._last_event_time f' = now) /\
     (b = false -> TongueSwitch._last_event_time f' = TongueSwitch._last_event_time f) /\
     TongueSwitch._prev_state f' = TongueSwitch._state f' /\
     TongueSwitch._state f' = TongueSwitch._state f).
Proof.
  split.
  - intros f i now Hreach Hi. now apply multi_consume_edge.
  - intros f now. apply single_consume_edge.
Qed.

Lemma consume_rising_edge_spec_witness :
  exists f',
    MultiTongueSwitch.consume_rising_edge 0 1000 first_show_object = (Ok true, f') /\
    py_get (_prev_state f') 0 = Ok true /\
    py_get (_last_event_time f') 0 = Ok 1000%Q.
Proof.
  assert (Hreach : MultiTongueSwitch.reachable first_show_object).
  { eapply multi_reachable_after. vm_compute. reflexivity. }
  assert (Hslot : slot_index (max_players (_cfg first_show_object)) 0).
  { vm_compute. split; [discriminate|reflexivity]. }
  destruct (proj1 consume_rising_edge_spec first_show_object 0 1000%Q Hreach Hslot)
    as (b & f' & Hc & Hiff & Htrue & _).
  assert (Hb : b = true).
  { apply Hiff. split; [vm_compute; reflexivity|]. split; [vm_compute; reflexivity|].
    exists 0%Q. split; vm_compute; reflexivity. }
  subst b. exists f'. split; [exact Hc|]. now apply Htrue.
Defined.

(** C1 as stated fails at the boundary: exactly [debounce_s] after the last
    reported edge, with the state true and the flag false, the call
    returns false. *)
Lemma consume_rising_edge_at_debounce_boundary :
  MultiTongueSwitch.reachable boundary_object /\
  py_get (_state boundary_object) 0 = Ok true /\
  py_get (_prev_state boundary_object) 0 = Ok false /\
  py_get (_last_event_time boundary_object) 0 = Ok 1000%Q /\
  (debounce_s (_cfg boundary_object) <= (8001 # 8) - 1000)%Q /\
  fst (MultiTongueSwitch.consume_rising_edge 0 (8001 # 8) boundary_object) = Ok false.
Proof.
  split. { eapply multi_reachable_after. vm_compute. reflexivity. }
  split. { vm_compute. reflexivity. }
  split. { vm_compute. reflexivity. }
  split. { vm_compute. reflexivity. }
  split. { vm_compute. discriminate. }
  vm_compute. reflexivity.
Qed.

(** ** C2: start and stop *)

(** C2 (amended).  A disabled object ignores [start()] and [stop()]; when no
    camera opens, [start()] changes nothing but the thread, which returns
    at once; once the thread was started, [stop()] returns normally and can
    be repeated with the effect of one call.  [start()] is not idempotent:
    the second call after a successful one raises [RuntimeError] (and
    leaves the object as it is). *)
Theorem start_stop_lifecycle :
  (forall f : MultiTongueSwitch.t,
     _enabled f = false ->
     MultiTongueSwitch.start f = (Ok tt, f) /\ MultiTongueSwitch.stop f = (Ok tt, f)) /\
  (forall (f : MultiTongueSwitch.t) (opened : list bool),
     _enabled f = true -> _thread f = NotStarted -> first_opened opened 0 = None ->
     exists f1,
       MultiTongueSwitch.start f = (Ok tt, f1) /\
       MultiTongueSwitch.run_open f1 opened = MultiTongueSwitch.set_thread f Finished) /\
  (forall f : MultiTongueSwitch.t,
     _thread f <> NotStarted ->
     exists f1,
       MultiTongueSwitch.stop f = (Ok tt, f1) /\ MultiTongueSwitch.stop f1 = (Ok tt, f1)) /\
  (forall f : TongueSwitch.t,
     TongueSwitch._thread f <> NotStarted ->
     exists f1, TongueSwitch.stop f = (Ok tt, f1) /\ TongueSwitch.stop f1 = (Ok tt, f1)) /\
  (forall f f1 : MultiTongueSwitch.t,
     _enabled f = true -> MultiTongueSwitch.start f = (Ok tt, f1) ->
     MultiTongueSwitch.start f1 = (Raise RuntimeError, f1)) /\
  (forall f f1 : TongueSwitch.t,
     TongueSwitch.start f = (Ok tt, f1) ->
     TongueSwitch.start f1 = (Raise RuntimeError, f1)).
Proof.
  split; [|split; [|split; [|split; [|split]]]].
  - intros f Hen. rewrite multi_start_cases, multi_stop_cases, Hen. split; reflexivity.
  - intros f opened Hen Hth Hnone.
    exists (MultiTongueSwitch.set_thread f Started). split.
    + rewrite multi_start_cases, Hen, Hth. reflexivity.
    + unfold MultiTongueSwitch.run_open, _open_camera. simpl.
      rewrite Hen, Hnone. reflexivity.
  - intros f Hth. rewrite multi_stop_cases. destruct (_enabled f) eqn:Hen.
    + exists (MultiTongueSwitch.set_stop f true). rewrite multi_stop_cases. simpl.
      rewrite Hen. destruct (_thread f); try contradiction; split; reflexivity.
    + exists f. rewrite multi_stop_cases, Hen. split; reflexivity.
  - intros f Hth. exists (TongueSwitch.set_stop f true).
    rewrite !single_stop_cases. simpl.
    destruct (TongueSwitch._thread f); try contradiction; split; reflexivity.
  - intros f f1 Hen Hs. rewrite multi_start_cases, Hen in Hs.
    destruct (_thread f); inversion Hs; subst.
    rewrite multi_start_cases. simpl. now rewrite Hen.
  - intros f f1 Hs. rewrite single_start_cases in Hs.
    destruct (TongueSwitch._thread f); inversion Hs; subst.
    now rewrite single_start_cases.
Qed.

Lemma start_stop_lifecycle_witness :
  MultiTongueSwitch.start (MultiTongueSwitch.__init__ false default_config)
    = (Ok tt, MultiTongueSwitch.__init__ false default_config) /\
  (exists f1, MultiTongueSwitch.stop first_show_object = (Ok tt, f1) /\
              MultiTongueSwitch.stop f1 = (Ok tt, f1)) /\
  (exists f1, TongueSwitch.stop single_first_show_object = (Ok tt, f1) /\
              TongueSwitch.stop f1 = (Ok tt, f1)).
Proof.
  destruct start_stop_lifecycle as (Hdis & _ & Hstop & Hstop1 & _).
  split; [|split].
  - apply Hdis. reflexivity.
  - apply Hstop. vm_compute. discriminate.
  - apply Hstop1. vm_compute. discriminate.
Defined.

(** C2 as stated fails: a second [start()] raises into the caller. *)
Lemma second_start_raises :
  exists f1,
    MultiTongueSwitch.start (MultiTongueSwitch.__init__ true default_config) = (Ok tt, f1) /\
    MultiTongueSwitch.start f1 = (Raise RuntimeError, f1).
Proof. eexists. split; reflexivity. Qed.

(** ** C3: the polling accessors *)

(** C3 (amended).  On every reachable object the three accessors return
    normally for every slot number in range, [-max_players <= i <
    max_players], and for every integer when the object is disabled. *)
Theorem accessors_total_in_range (f : MultiTongueSwitch.t) (i : Z) (now : Q) :
  MultiTongueSwitch.reachable f ->
  _enabled f = false \/ slot_index (max_players (_cfg f)) i ->
  (exists b, MultiTongueSwitch.get_state f i = Ok b) /\
  (exists d, MultiTongueSwitch.get_direction f i = Ok d) /\
  (exists b f', MultiTongueSwitch.consume_rising_edge i now f = (Ok b, f')).
Proof.
  intros Hreach Hcase.
  pose proof (multi_reachable_shape f Hreach) as Hshape.
  unfold MultiTongueSwitch.get_state, MultiTongueSwitch.get_direction.
  destruct (multi_consume_cases f i now Hshape)
    as [[Hen Heq]|[(Hen & Hout & _)|(Hen & n & s & p & last & Hn & _ & _ & _ & Heq)]].
  - rewrite Hen. simpl. split; [eauto|]. split; [eauto|]. eauto.
  - destruct Hcase as [Hf|Hi]; [congruence|contradiction].
  - rewrite Hen. simpl.
    destruct Hshape as (Hs & Hp & Hl & Hd).
    assert (Hns : py_norm (length (_state f)) i = Some n) by now rewrite Hs.
    assert (Hnd : py_norm (length (_direction f)) i = Some n) by now rewrite Hd.
    destruct (py_get_norm _ _ _ Hns) as (s' & Gs & _).
    destruct (py_get_norm _ _ _ Hnd) as (d & Gd & _).
    split; [eauto|]. split; [eauto|]. rewrite Heq.
    destruct (s && negb p && Qgtb (now - last) (debounce_s (_cfg f))); eauto.
Qed.

Lemma accessors_total_in_range_witness :
  (exists b, MultiTongueSwitch.get_state first_show_object (-1) = Ok b) /\
  (exists d, MultiTongueSwitch.get_direction first_show_object (-1) = Ok d) /\
  (exists b f',
     MultiTongueSwitch.consume_rising_edge (-1) 1000 first_show_object = (Ok b, f')).
Proof.
  apply (accessors_total_in_range first_show_object (-1) 1000%Q).
  - eapply multi_reachable_after. vm_compute. reflexivity.
  - right. vm_compute. split; [discriminate|reflexivity].
Defined.

(** C3 as stated fails: slot number 2 of a two-player object raises
    [IndexError] from all three accessors. *)
Lemma accessors_raise_out_of_range :
  MultiTongueSwitch.get_state (MultiTongueSwitch.__init__ true default_config) 2
    = Raise IndexError /\
  MultiTongueSwitch.get_direction (MultiTongueSwitch.__init__ true default_config) 2
    = Raise IndexError /\
  fst (MultiTongueSwitch.consume_rising_edge 2 1000
         (MultiTongueSwitch.__init__ true default_config))
    = Raise IndexError.
Proof. repeat split; reflexivity. Qed.

(** ** C9: no dependencies, or no camera *)

Lemma single_consume_idle (f : TongueSwitch.t) (now : Q) :
  single_idle f -> TongueSwitch.consume_rising_edge f now = (false, f).
Proof.
  intros (Hs & Hp & _). unfold TongueSwitch.consume_rising_edge.
  rewrite Hs. simpl. destruct f; simpl in *; subst. reflexivity.
Qed.

Lemma single_step_quiet (f f' : TongueSwitch.t) (ev : TongueSwitch.event) :
  single_quiet f ->
  (forall opened, ev = TongueSwitch.WorkerOpen opened -> first_opened opened 0 = None) ->
  TongueSwitch.step f ev = Some f' ->
  single_quiet f'.
Proof.
  intros (Hidle & Hth) Hcam Hstep.
  destruct ev as [| |now|opened|rd]; unfold TongueSwitch.step in Hstep.
  - rewrite single_start_cases in Hstep.
    destruct (TongueSwitch._thread f) eqn:Ht; inversion Hstep; subst;
      (split; [exact Hidle|]); simpl; rewrite ?Ht; try discriminate; assumption.
  - rewrite single_stop_cases in Hstep. inversion Hstep; subst.
    split; [exact Hidle|exact Hth].
  - rewrite (single_consume_idle f now Hidle) in Hstep. inversion Hstep; subst.
    split; assumption.
  - destruct (TongueSwitch._thread f); try discriminate. inversion Hstep; subst.
    unfold TongueSwitch.run_open, _open_camera. rewrite (Hcam opened eq_refl). simpl.
    split; [exact Hidle|]. simpl. discriminate.
  - destruct (TongueSwitch._thread f); try discriminate. now contradiction Hth.
Qed.

Lemma single_run_quiet (evs : list TongueSwitch.event) :
  forall f f' : TongueSwitch.t,
    single_quiet f ->
    TongueSwitch.no_camera evs ->
    TongueSwitch.run f evs = Some f' ->
    single_quiet f'.
Proof.
  induction evs as [|ev rest IH]; intros f f' Hq Hcam Hrun; simpl in Hrun.
  - now inversion Hrun; subst.
  - destruct (TongueSwitch.step f ev) as [f1|] eqn:Hstep; [|discriminate].
    apply (IH f1 f'); [| |exact Hrun].
    + apply (single_step_quiet f f1 ev Hq); [|exact Hstep].
      intros opened ->. apply Hcam. now left.
    + intros opened Hin. apply Hcam. now right.
Qed.

(** C9.  When the dependencies are missing or no camera opens, [_run]
    returns at once without raising and writes nothing but the thread's
    end; and every object of a run in which this is so answers, for every
    slot and at every time: state false, direction None, no rising edge
    (and no change to the object), no preview; no call raises. *)
Theorem unavailable_reads_absent :
  (forall (f : MultiTongueSwitch.t) (opened : list bool) (reads : list (option frame)),
     _enabled f = false \/ first_opened opened 0 = None ->
     MultiTongueSwitch._run f opened reads = Ok (MultiTongueSwitch.set_thread f Finished)) /\
  (forall (f : TongueSwitch.t) (opened : list bool) (reads : list (option frame)),
     first_opened opened 0 = None ->
     TongueSwitch._run f opened reads = TongueSwitch.set_thread f Finished) /\
  (forall (deps_ok : bool) (cfg : config) (evs : list MultiTongueSwitch.event)
          (f : MultiTongueSwitch.t),
     MultiTongueSwitch.run (MultiTongueSwitch.__init__ deps_ok cfg) evs = Some f ->
     deps_ok = false \/ MultiTongueSwitch.no_camera evs ->
     forall (i : Z) (now : Q),
       slot_index (max_players cfg) i ->
       MultiTongueSwitch.get_state f i = Ok false /\
       MultiTongueSwitch.get_direction f i = Ok None /\
       MultiTongueSwitch.consume_rising_edge i now f = (Ok false, f) /\
       MultiTongueSwitch.get_preview_rgb f = None) /\
  (forall (cfg : config) (evs : list TongueSwitch.event) (f : TongueSwitch.t),
     TongueSwitch.run (TongueSwitch.__init__ cfg) evs = Some f ->
     TongueSwitch.no_camera evs ->
     forall now : Q,
       TongueSwitch.get_state f = false /\
       TongueSwitch.get_direction f = None /\
       TongueSwitch.consume_rising_edge f now = (false, f) /\
       TongueSwitch.get_preview_rgb f = None).
Proof.
  split; [|split; [|split]].
  - intros f opened reads Hcase.
    unfold MultiTongueSwitch._run, MultiTongueSwitch.run_open, _open_camera.
    destruct Hcase as [Hen|Hnone].
    + rewrite Hen. reflexivity.
    + rewrite Hnone. destruct (_enabled f); reflexivity.
  - intros f opened reads Hnone.
    unfold TongueSwitch._run, TongueSwitch.run_open, _open_camera.
    rewrite Hnone. reflexivity.
  - intros deps_ok cfg evs f Hrun Hcase i now Hi.
    destruct (multi_run_shape evs _ _ (multi_init_shape deps_ok cfg) Hrun)
      as (Hshape & Hen & Hcfg).
    simpl in Hen, Hcfg.
    assert (Hq : multi_quiet f).
    { apply (multi_run_quiet evs _ f (multi_init_quiet deps_ok cfg)); [|exact Hrun].
      destruct Hcase as [->|Hn]; [now left|now right]. }
    destruct Hq as (_ & Hidle & _).
    pose proof Hidle as (Hst & Hpr & Hdr & Hpv).
    rewrite <- Hcfg in Hi.
    unfold MultiTongueSwitch.get_state, MultiTongueSwitch.get_direction,
      MultiTongueSwitch.get_preview_rgb.
    rewrite Hst, Hdr, Hpv, !py_get_replicate by exact Hi.
    repeat split; try (destruct (negb (_enabled f)); reflexivity).
    destruct (multi_consume_idle f i now Hshape Hidle) as [Hsnd Hfst].
    specialize (Hfst Hi).
    destruct (MultiTongueSwitch.consume_rising_edge i now f) as [r f'].
    simpl in Hsnd, Hfst. now subst.
  - intros cfg evs f Hrun Hcam now.
    assert (Hq : single_quiet f).
    { apply (single_run_quiet evs (TongueSwitch.__init__ cfg) f); [|exact Hcam|exact Hrun].
      split; [|simpl; discriminate]. unfold single_idle. simpl. tauto. }
    destruct Hq as (Hidle & _). pose proof Hidle as (Hs & Hp & Hd & Hv).
    unfold TongueSwitch.get_state, TongueSwitch.get_direction, TongueSwitch.get_preview_rgb.
    rewrite Hs, Hd, Hv. repeat split. now apply single_consume_idle.
Qed.

Lemma unavailable_reads_absent_witness :
  MultiTongueSwitch._run (MultiTongueSwitch.__init__ true default_config)
    [false; false] [Some two_faces_frame]
    = Ok (MultiTongueSwitch.set_thread (MultiTongueSwitch.__init__ true default_config)
            Finished) /\
  MultiTongueSwitch.get_state
    (multi_after true default_config
       [MultiTongueSwitch.CallStart; MultiTongueSwitch.WorkerOpen [false; false];
        MultiTongueSwitch.CallStop]) 1 = Ok false /\
  TongueSwitch.get_direction
    (single_after default_config
       [TongueSwitch.CallStart; TongueSwitch.WorkerOpen [false; false]]) = None.
Proof.
  destruct unavailable_reads_absent as (Hrun & _ & Hmulti & Hsingle).
  split; [|split].
  - apply Hrun. right. reflexivity.
  - refine (proj1 (Hmulti true default_config
                     [MultiTongueSwitch.CallStart; MultiTongueSwitch.WorkerOpen [false; false];
                      MultiTongueSwitch.CallStop] _ _ _ 1 0%Q _)).
    + reflexivity.
    + right. intros opened [H|[H|[H|[]]]]; try discriminate. now inversion H.
    + unfold slot_index. simpl. lia.
  - refine (proj1 (proj2 (Hsingle default_config
                     [TongueSwitch.CallStart; TongueSwitch.WorkerOpen [false; false]]
                     _ _ _ 0%Q))).
    + reflexivity.
    + intros opened [H|[H|[]]]; try discriminate. now inversion H.
Defined.

(** ** C10: what each side writes *)

Lemma multi_run_turn_edge_fields (f f' : MultiTongueSwitch.t) (rd : option frame) :
  multi_shape f ->
  MultiTongueSwitch.run_turn f rd = Ok f' ->
  _prev_state f' = _prev_state f /\ _last_event_time f' = _last_event_time f.
Proof.
  intros Hshape Ht. unfold MultiTongueSwitch.run_turn in Ht.
  destruct (_stop f).
  - inversion Ht; subst. split; reflexivity.
  - destruct rd as [fr|]; simpl in Ht; [|inversion Ht; subst; split; reflexivity].
    destruct (multi_publish_ok f (sort_faces (faces_of (_cfg f) fr)) (fr_rgb fr) Hshape)
      as (f2 & Hp & _ & (_ & _ & Hprev & Hlast & _) & _).
    rewrite Hp in Ht. inversion Ht; subst. split; assumption.
Qed.

Lemma single_run_turn_edge_fields (f : TongueSwitch.t) (rd : option frame) :
  TongueSwitch._prev_state (TongueSwitch.run_turn f rd) = TongueSwitch._prev_state f /\
  TongueSwitch._last_event_time (TongueSwitch.run_turn f rd)
    = TongueSwitch._last_event_time f.
Proof.
  unfold TongueSwitch.run_turn, TongueSwitch.loop_body.
  destruct (TongueSwitch._stop f); [split; reflexivity|].
  destruct rd as [fr|]; [|split; reflexivity].
  destruct (TongueSwitch.reading (TongueSwitch._cfg f) fr). split; reflexivity.
Qed.

(** C10.  [consume_rising_edge(i)], whether it returns or raises, leaves
    the published state, direction and preview of every slot as they were
    and writes the two edge-tracking fields at slot [i] only; a loop turn
    of the worker, publish included, leaves the two edge-tracking fields of
    every slot as they were. *)
Theorem edge_fields_and_snapshot_are_separate :
  (forall (f : MultiTongueSwitch.t) (i : Z) (now : Q),
     multi_shape f ->
     let f' := snd (MultiTongueSwitch.consume_rising_edge i now f) in
     _state f' = _state f /\ _direction f' = _direction f /\ _preview f' = _preview f /\
     forall n : nat,
       py_norm (max_players (_cfg f)) i <> Some n ->
       _prev_state f' !! n = _prev_state f !! n /\
       _last_event_time f' !! n = _last_event_time f !! n) /\
  (forall (f f' : MultiTongueSwitch.t) (rd : option frame),
     multi_shape f ->
     MultiTongueSwitch.run_turn f rd = Ok f' ->
     _prev_state f' = _prev_state f /\ _last_event_time f' = _last_event_time f) /\
  (forall (f : TongueSwitch.t) (now : Q),
     let f' := snd (TongueSwitch.consume_rising_edge f now) in
     TongueSwitch._state f' = TongueSwitch._state f /\
     TongueSwitch._direction f' = TongueSwitch._direction f /\
     TongueSwitch._preview f' = TongueSwitch._preview f) /\
  (forall (f : TongueSwitch.t) (rd : option frame),
     TongueSwitch._prev_state (TongueSwitch.run_turn f rd) = TongueSwitch._prev_state f /\
     TongueSwitch._last_event_time (TongueSwitch.run_turn f rd)
       = TongueSwitch._last_event_time f).
Proof.
  split; [|split; [|split]].
  - intros f i now Hshape. cbv zeta.
    destruct (multi_consume_cases f i now Hshape)
      as [[_ ->]|[(_ & _ & ->)|(_ & k & s & p & last & Hk & _ & _ & _ & ->)]];
      try (simpl; repeat split; reflexivity).
    destruct (s && negb p && Qgtb (now - last) (debounce_s (_cfg f)));
      simpl; repeat split; try reflexivity;
      rewrite ?list_lookup_insert_ne by congruence; reflexivity.
  - apply multi_run_turn_edge_fields.
  - intros f now. cbv zeta. unfold TongueSwitch.consume_rising_edge.
    destruct (TongueSwitch._state f && negb (TongueSwitch._prev_state f)
              && Qgtb (now - TongueSwitch._last_event_time f)
                      (debounce_s (TongueSwitch._cfg f)));
      simpl; repeat split; reflexivity.
  - apply single_run_turn_edge_fields.
Qed.

Lemma edge_fields_and_snapshot_are_separate_witness :
  (MultiTongueSwitch.consume_rising_edge 0 1000 first_show_object
     = (Ok true, first_show_consumed) /\
   _state first_show_consumed = _state first_show_object /\
   _prev_state first_show_consumed !! 1%nat = _prev_state first_show_object !! 1%nat) /\
  (MultiTongueSwitch.run_turn first_show_object (Some (frame_of [])) = Ok first_show_gone /\
   _prev_state first_show_gone = _prev_state first_show_object).
Proof.
  destruct edge_fields_and_snapshot_are_separate as (Hconsume & Hturn & _).
  assert (Hshape : multi_shape first_show_object).
  { unfold multi_shape. vm_compute. repeat split; reflexivity. }
  assert (Hc : MultiTongueSwitch.consume_rising_edge 0 1000 first_show_object
               = (Ok true, first_show_consumed)) by (vm_compute; reflexivity).
  assert (Ht : MultiTongueSwitch.run_turn first_show_object (Some (frame_of []))
               = Ok first_show_gone) by (vm_compute; reflexivity).
  split.
  - split; [exact Hc|].
    pose proof (Hconsume first_show_object 0 1000%Q Hshape) as Hframe.
    cbv zeta in Hframe. rewrite Hc in Hframe. cbn [snd] in Hframe.
    destruct Hframe as (Hs & _ & _ & Hn).
    split; [exact Hs|]. apply (Hn 1%nat). vm_compute. discriminate.
  - split; [exact Ht|].
    exact (proj1 (Hturn first_show_object _ (Some (frame_of [])) Hshape Ht)).
Defined.

(** ** C8: the presence fraction *)

Lemma count_true_nonneg (l : list bool) : 0 <= count_true l.
Proof. induction l as [|b l IH]; simpl; [lia|]. destruct b; simpl; lia. Qed.

Lemma count_px_nonneg (m : mask) : 0 <= count_px m.
Proof.
  induction m as [|row m IH]; simpl; [lia|].
  pose proof (count_true_nonneg row) as H. unfold count_true in H. lia.
Qed.

Lemma count_row_and (a b : list bool) :
  count_true (zip_with andb a b) <= count_true b.
Proof.
  revert b. induction a as [|x a IH]; intros [|y b]; simpl; try lia.
  - pose proof (count_true_nonneg b). destruct y; simpl; lia.
  - specialize (IH b). destruct x, y; simpl; lia.
Qed.

(** Intersecting with the mouth mask leaves at most the mouth's pixels. *)
Lemma count_px_bitwise_and (m mouth : mask) :
  count_px (bitwise_and m mouth) <= count_px mouth.
Proof.
  unfold bitwise_and, mask_zip. revert mouth.
  induction m as [|row m IH]; intros [|row' mouth]; simpl; try lia.
  - apply (count_px_nonneg (row' :: mouth)).
  - specialize (IH mouth). pose proof (count_row_and row row') as H.
    unfold count_true in H. lia.
Qed.

Lemma ratio_bounds (a b : Z) :
  0 <= a ->
  (0 <= inject_Z a / inject_Z (Z.max 1 b))%Q /\
  (a <= b -> (inject_Z a / inject_Z (Z.max 1 b) <= 1)%Q).
Proof.
  intros Ha.
  assert (Hpos : (0 < inject_Z (Z.max 1 b))%Q).
  { change 0%Q with (inject_Z 0). rewrite <- Zlt_Qlt. lia. }
  split.
  - apply Qle_shift_div_l; [exact Hpos|]. rewrite Qmult_0_l.
    change 0%Q with (inject_Z 0). rewrite <- Zle_Qle. exact Ha.
  - intros Hab. apply Qle_shift_div_r; [exact Hpos|]. rewrite Qmult_1_l.
    rewrite <- Zle_Qle. lia.
Qed.

(** C8 (amended).  The presence fraction is the number of pixels of the
    denoised gesture mask divided by max(1, number of mouth-interior
    pixels); it is never negative; it is at most 1 whenever the denoised
    mask has no more pixels than the mouth interior, as is the case of the
    mask before denoising. *)
Theorem presence_fraction_bounds (d : detection) :
  frac d =
    (inject_Z (count_px (_tongue_mask (det_hsv d) (det_mouth d)))
     / inject_Z (Z.max 1 (count_px (det_mouth d))))%Q /\
  (0 <= frac d)%Q /\
  (tongue_px d <= mouth_px d -> (frac d <= 1)%Q) /\
  (forall m : mask,
     (inject_Z (count_px (bitwise_and m (det_mouth d)))
      / inject_Z (Z.max 1 (mouth_px d)) <= 1)%Q).
Proof.
  split; [reflexivity|].
  pose proof (ratio_bounds (tongue_px d) (mouth_px d) (count_px_nonneg _)) as [H0 H1].
  split; [exact H0|]. split; [exact H1|].
  intros m.
  apply (ratio_bounds (count_px (bitwise_and m (det_mouth d))) (mouth_px d)
           (count_px_nonneg _)).
  apply count_px_bitwise_and.
Qed.

Lemma presence_fraction_bounds_witness :
  (frac (mouth_at 300 red_px) <= 1)%Q.
Proof.
  destruct (presence_fraction_bounds (mouth_at 300 red_px)) as (_ & _ & Hle & _).
  apply Hle. vm_compute. discriminate.
Defined.

(** C8 as stated fails: on the horseshoe-shaped mouth the median filter
    fills the gap between the two arms, the denoised mask has 151 pixels
    for 146 mouth pixels, and the fraction exceeds 1. *)
Lemma presence_fraction_above_one :
  tongue_px horseshoe = 151 /\ mouth_px horseshoe = 146 /\
  ~ (frac horseshoe <= 1)%Q.
Proof.
  split; [vm_compute; reflexivity|]. split; [vm_compute; reflexivity|].
  vm_compute. intros H. apply H. reflexivity.
Qed.

(** ** The left-to-right order of the faces *)

Lemma insert_face_perm (a : face) (l : list face) :
  Permutation (insert_face a l) (a :: l).
Proof.
  induction l as [|b l IH]; simpl; [reflexivity|].
  destruct (mx a <=? mx b); [reflexivity|].
  rewrite IH. apply perm_swap.
Qed.

Lemma sort_faces_perm (l : list face) : Permutation (sort_faces l) l.
Proof.
  induction l as [|a l IH]; simpl; [reflexivity|].
  rewrite insert_face_perm. now constructor.
Qed.

Lemma insert_face_sorted (a : face) (l : list face) :
  StronglySorted face_le l -> StronglySorted face_le (insert_face a l).
Proof.
  induction l as [|b l IH]; intros Hs; simpl.
  - constructor; constructor.
  - inversion Hs as [|b' l' Hl Hb]; subst.
    destruct (Z.leb_spec (mx a) (mx b)) as [Hab|Hab].
    + constructor; [exact Hs|]. constructor; [exact Hab|].
      rewrite List.Forall_forall in Hb. apply List.Forall_forall. intros c Hc.
      specialize (Hb c Hc). unfold face_le in *. lia.
    + constructor; [now apply IH|].
      apply List.Forall_forall. intros c Hc.
      apply (Permutation_in _ (insert_face_perm a l)) in Hc.
      destruct Hc as [<-|Hc]; [unfold face_le; lia|].
      rewrite List.Forall_forall in Hb. now apply Hb.
Qed.

Lemma sort_faces_sorted (l : list face) : StronglySorted face_le (sort_faces l).
Proof.
  induction l as [|a l IH]; simpl; [constructor|]. now apply insert_face_sorted.
Qed.

Lemma filter_length_perm {A : Type} (p : A -> bool) (l l' : list A) :
  Permutation l l' -> length (List.filter p l) = length (List.filter p l').
Proof.
  induction 1 as [|x l l' _ IH|x y l|l l' l'' _ IH1 _ IH2]; simpl.
  - reflexivity.
  - destruct (p x); simpl; congruence.
  - destruct (p x), (p y); reflexivity.
  - congruence.
Qed.

(** In a list sorted by distinct centers, the element at position [i] has
    exactly [i] elements to its left. *)
Lemma sorted_rank (l : list face) :
  StronglySorted face_le l ->
  List.NoDup (map mx l) ->
  forall (i : nat) (fc : face), l !! i = Some fc -> rank_in l fc = i.
Proof.
  unfold rank_in.
  induction l as [|a l IH]; intros Hs Hnd i fc Hi; [discriminate|].
  inversion Hs as [|a' l' Hl Ha]; subst.
  inversion Hnd as [|x xs Hnotin Hnd']; subst.
  rewrite List.Forall_forall in Ha.
  destruct i as [|i]; simpl in Hi.
  - inversion Hi; subst. simpl. rewrite Z.ltb_irrefl.
    assert (Hnone : List.filter (fun g => mx g <? mx fc) l = []).
    { clear -Ha. induction l as [|b l IH]; simpl; [reflexivity|].
      destruct (Z.ltb_spec (mx b) (mx fc)) as [Hlt|Hge].
      - exfalso. specialize (Ha b (or_introl eq_refl)). unfold face_le in Ha. lia.
      - apply IH. intros c Hc. apply Ha. now right. }
    now rewrite Hnone.
  - assert (Hin : In fc l).
    { apply list_elem_of_In. eapply list_elem_of_lookup_2. exact Hi. }
    assert (Hlt : mx a < mx fc).
    { specialize (Ha fc Hin). unfold face_le in Ha.
      assert (mx a <> mx fc).
      { intros E. apply Hnotin. rewrite E. now apply in_map. }
      lia. }
    simpl. apply Z.ltb_lt in Hlt. rewrite Hlt. simpl. f_equal.
    now apply IH.
Qed.

Lemma omap_length_le {A B : Type} (g : A -> option B) (l : list A) :
  (length (omap g l) <= length l)%nat.
Proof.
  induction l as [|a l IH]; simpl; [lia|].
  unfold omap in IH. destruct (g a); simpl; lia.
Qed.

Lemma faces_of_length (cfg : config) (fr : frame) :
  (length (faces_of cfg fr) <= max_players cfg)%nat.
Proof.
  unfold faces_of.
  pose proof (omap_length_le (face_of cfg (fr_w fr) (fr_h fr))
                (take (max_players cfg) (fr_landmarks fr))) as H.
  rewrite length_take in H. lia.
Qed.

Lemma faces_of_truncate (cfg : config) (fr : frame) :
  faces_of cfg (truncate_frame (max_players cfg) fr) = faces_of cfg fr.
Proof. unfold faces_of, truncate_frame. simpl. now rewrite take_idemp. Qed.

Lemma slot_values_sorted_lookup (faces : list face) (i : nat) (fc : face) :
  sort_faces faces !! i = Some fc ->
  MultiTongueSwitch.slot_values (sort_faces faces) i = (tongue fc, direction fc).
Proof.
  intros Hl. unfold MultiTongueSwitch.slot_values. rewrite Hl.
  apply lookup_lt_Some in Hl. apply Nat.ltb_lt in Hl. now rewrite Hl.
Qed.

Lemma slot_values_beyond (faces : list face) (i : nat) :
  (length faces <= i)%nat ->
  MultiTongueSwitch.slot_values (sort_faces faces) i = (false, None).
Proof.
  intros Hi. unfold MultiTongueSwitch.slot_values.
  rewrite (Permutation_length (sort_faces_perm faces)).
  apply Nat.ltb_ge in Hi. now rewrite Hi.
Qed.

(** ** C5: a slot without a subject *)

(** C5.  A processed frame is always published, and every slot at or
    beyond the number of faces of the frame then reads state false and
    direction None, whatever it held before. *)
Theorem missing_subject_reset (f : MultiTongueSwitch.t) (fr : frame) :
  multi_shape f ->
  exists f',
    MultiTongueSwitch.loop_body f (Some fr) = Ok f' /\
    forall i : nat,
      (length (faces_of (_cfg f) fr) <= i < max_players (_cfg f))%nat ->
      _state f' !! i = Some false /\
      _direction f' !! i = Some None /\
      MultiTongueSwitch.get_state f' (Z.of_nat i) = Ok false /\
      MultiTongueSwitch.get_direction f' (Z.of_nat i) = Ok None.
Proof.
  intros Hshape. simpl.
  destruct (multi_publish_ok f (sort_faces (faces_of (_cfg f) fr)) (fr_rgb fr) Hshape)
    as (f' & Hp & Hshape' & (_ & Hcfg & _) & _ & Hslots).
  exists f'. split; [exact Hp|].
  intros i [Hlo Hhi].
  destruct (Hslots i Hhi) as [Hs Hd].
  rewrite (slot_values_beyond _ _ Hlo) in Hs, Hd. simpl in Hs, Hd.
  split; [exact Hs|]. split; [exact Hd|].
  destruct Hshape' as (Ls & _ & _ & Ld). rewrite Hcfg in Ls, Ld.
  unfold MultiTongueSwitch.get_state, MultiTongueSwitch.get_direction.
  destruct (negb (_enabled f')); [split; reflexivity|].
  assert (Hns : py_norm (length (_state f')) (Z.of_nat i) = Some i)
    by (apply py_norm_nat; lia).
  assert (Hnd : py_norm (length (_direction f')) (Z.of_nat i) = Some i)
    by (apply py_norm_nat; lia).
  destruct (py_get_norm _ _ _ Hns) as (a & Ga & La).
  destruct (py_get_norm _ _ _ Hnd) as (b & Gb & Lb).
  split; congruence.
Qed.

Lemma missing_subject_reset_witness :
  _state first_show_object !! 0%nat = Some true /\
  exists f',
    MultiTongueSwitch.loop_body first_show_object (Some (frame_of [])) = Ok f' /\
    _state f' !! 0%nat = Some false /\
    _direction f' !! 0%nat = Some None.
Proof.
  split; [vm_compute; reflexivity|].
  assert (Hshape : multi_shape first_show_object).
  { unfold multi_shape. vm_compute. repeat split; reflexivity. }
  destruct (missing_subject_reset first_show_object (frame_of []) Hshape)
    as (f' & Hrun & Hslots).
  exists f'. split; [exact Hrun|].
  assert (Hrange : (length (faces_of (_cfg first_show_object) (frame_of [])) <= 0
                    < max_players (_cfg first_show_object))%nat).
  { vm_compute. split; [constructor|repeat constructor]. }
  destruct (Hslots 0%nat Hrange) as (Hs & Hd & _). split; assumption.
Defined.

(** ** C6: slots follow the left-to-right order *)

(** The published slots follow the sorted faces of the first
    [max_players] entries, whatever the length of the detector's list. *)
Lemma multi_slots_sorted (f : MultiTongueSwitch.t) (fr : frame) :
  multi_shape f ->
  List.NoDup (map mx (faces_of (_cfg f) fr)) ->
  exists f',
    MultiTongueSwitch.loop_body f (Some fr) = Ok f' /\
    forall i : nat,
      (i < length (faces_of (_cfg f) fr))%nat ->
      exists fc,
        In fc (faces_of (_cfg f) fr) /\
        rank_in (faces_of (_cfg f) fr) fc = i /\
        _state f' !! i = Some (tongue fc) /\
        _direction f' !! i = Some (direction fc).
Proof.
  intros Hshape Hnd.
  set (faces := faces_of (_cfg f) fr) in *.
  destruct (multi_publish_ok f (sort_faces faces) (fr_rgb fr) Hshape)
    as (f' & Hp & _ & _ & _ & Hslots).
  exists f'. split; [exact Hp|].
  pose proof (faces_of_length (_cfg f) fr) as Hlen. fold faces in Hlen.
  intros i Hi.
  assert (Hi' : (i < length (sort_faces faces))%nat)
    by now rewrite (Permutation_length (sort_faces_perm faces)).
  destruct (lookup_lt_is_Some_2 _ _ Hi') as [fc Hfc].
  exists fc. split; [|split].
  - apply (Permutation_in _ (sort_faces_perm faces)).
    apply list_elem_of_In. eapply list_elem_of_lookup_2. exact Hfc.
  - unfold rank_in.
    rewrite <- (filter_length_perm _ _ _ (sort_faces_perm faces)).
    apply (sorted_rank (sort_faces faces)); [apply sort_faces_sorted| |exact Hfc].
    eapply Permutation_NoDup; [|exact Hnd].
    apply Permutation_map. symmetry. apply sort_faces_perm.
  - assert (Hlt : (i < max_players (_cfg f))%nat) by lia.
    destruct (Hslots i Hlt) as [Hs Hd].
    rewrite (slot_values_sorted_lookup _ _ _ Hfc) in Hs, Hd. now split.
Qed.

Lemma faces_of_capped (cfg : config) (fr : frame) :
  detector_capped cfg fr -> faces_of cfg fr = subjects cfg fr.
Proof.
  intros Hcap. unfold faces_of, subjects. now rewrite take_ge by exact Hcap.
Qed.

Lemma faces_of_same_prefix (cfg : config) (fr fr' : frame) :
  truncate_frame (max_players cfg) fr' = truncate_frame (max_players cfg) fr ->
  faces_of cfg fr' = faces_of cfg fr /\ fr_rgb fr' = fr_rgb fr.
Proof.
  intros Heq. split.
  - rewrite <- (faces_of_truncate cfg fr'), <- (faces_of_truncate cfg fr). now rewrite Heq.
  - exact (f_equal fr_rgb Heq).
Qed.

(** C6.  A processed frame is always published.  For a frame with N
    detected subjects of distinct horizontal mouth centers, slot [i] holds,
    for every [i < min(N, max_players)], the presence and direction of the
    subject with exactly [i] subjects to its left (the i-th smallest
    center; the leftmost gets slot 0).  The detector hands back at most
    [max_players] entries, and the slice [[:max_players]] makes entries
    past them play no part: a frame that agrees with this one on its first
    [max_players] entries publishes the same. *)
Theorem slots_follow_left_to_right (f : MultiTongueSwitch.t) (fr : frame) :
  multi_shape f ->
  detector_capped (_cfg f) fr ->
  List.NoDup (map mx (subjects (_cfg f) fr)) ->
  exists f',
    MultiTongueSwitch.loop_body f (Some fr) = Ok f' /\
    (forall i : nat,
       (i < Nat.min (length (subjects (_cfg f) fr)) (max_players (_cfg f)))%nat ->
       exists fc,
         In fc (subjects (_cfg f) fr) /\
         rank_in (subjects (_cfg f) fr) fc = i /\
         _state f' !! i = Some (tongue fc) /\
         _direction f' !! i = Some (direction fc)) /\
    (forall fr' : frame,
       truncate_frame (max_players (_cfg f)) fr' = truncate_frame (max_players (_cfg f)) fr ->
       MultiTongueSwitch.loop_body f (Some fr') = Ok f').
Proof.
  intros Hshape Hcap Hnd.
  pose proof (faces_of_capped (_cfg f) fr Hcap) as Hfaces.
  rewrite <- Hfaces in Hnd.
  destruct (multi_slots_sorted f fr Hshape Hnd) as (f' & Hrun & Hslots).
  exists f'. split; [exact Hrun|]. split.
  - intros i Hi. rewrite <- Hfaces. apply Hslots.
    rewrite <- Hfaces in Hi. lia.
  - intros fr' Heq.
    destruct (faces_of_same_prefix (_cfg f) fr fr' Heq) as [Hf Hr].
    simpl in *. now rewrite Hf, Hr.
Qed.

Lemma slots_follow_left_to_right_witness :
  MultiTongueSwitch.loop_body looping_object (Some two_faces_frame) = Ok two_faces_object /\
  _state two_faces_object !! 0%nat = Some true.
Proof.
  assert (Hshape : multi_shape looping_object).
  { unfold multi_shape. vm_compute. repeat split; reflexivity. }
  assert (Hcap : detector_capped (_cfg looping_object) two_faces_frame).
  { unfold detector_capped. vm_compute. repeat constructor. }
  assert (Hnd : List.NoDup (map mx (subjects (_cfg looping_object) two_faces_frame))).
  { vm_compute. repeat constructor; simpl; intros H;
      repeat (destruct H as [H|H]; try discriminate); exact H. }
  destruct (slots_follow_left_to_right looping_object two_faces_frame Hshape Hcap Hnd)
    as (f' & Hrun & Hslots & _).
  assert (Hc : MultiTongueSwitch.loop_body looping_object (Some two_faces_frame)
               = Ok two_faces_object) by (vm_compute; reflexivity).
  split; [exact Hc|].
  assert (Hf : f' = two_faces_object) by congruence. subst f'.
  assert (Hsubjects : subjects (_cfg looping_object) two_faces_frame =
            [ {| mx := 304; my := 104; tongue := false; direction := None |};
              {| mx := 104; my := 104; tongue := true; direction := Some CENTER |} ])
    by (vm_compute; reflexivity).
  rewrite Hsubjects in Hslots.
  assert (H0 : (0 < Nat.min 2 (max_players (_cfg looping_object)))%nat)
    by (vm_compute; repeat constructor).
  destruct (Hslots 0%nat H0) as (fc & Hin & Hrank & Hs & _).
  destruct Hin as [<-|[<-|[]]].
  - discriminate Hrank.
  - exact Hs.
Defined.

(** ** C4: direction and presence *)

Lemma row_sum_count (g : nat -> bool -> Z) (row : list bool) :
  (forall c b, g c b = b2z b) ->
  fold_right Z.add 0 (imap g row) = count_true row.
Proof.
  revert g. induction row as [|x row IH]; intros g Hg; simpl; [reflexivity|].
  rewrite Hg. f_equal. apply IH. intros c b. apply Hg.
Qed.

Lemma rows_sum_count (g : nat -> list bool -> Z) (m : mask) :
  (forall r row, g r row = count_true row) ->
  fold_right Z.add 0 (imap g m) = count_px m.
Proof.
  revert g. induction m as [|row m IH]; intros g Hg; simpl; [reflexivity|].
  rewrite Hg. unfold count_true at 1. f_equal. apply IH. intros r row'. apply Hg.
Qed.

(** The zeroth moment of a binary mask is its number of set pixels. *)
Lemma m00_count (m : mask) : m00 m = count_px m.
Proof.
  unfold m00, moment_sum. apply rows_sum_count. intros r row.
  apply row_sum_count. intros c b. lia.
Qed.

Lemma present_has_pixels (cfg : config) (d : detection) :
  (0 < frac_threshold cfg)%Q ->
  tongue_present cfg d = true ->
  0 < tongue_px d.
Proof.
  intros Hth Hp. unfold tongue_present in Hp.
  apply andb_true_iff in Hp as [_ Hq]. apply Qgeb_true in Hq.
  pose proof (count_px_nonneg (_tongue_mask (det_hsv d) (det_mouth d))) as Hnn.
  fold (tongue_px d) in Hnn.
  destruct (Z.eq_dec (tongue_px d) 0) as [E|E]; [|lia].
  exfalso. apply (Qlt_not_le _ _ Hth).
  apply (Qle_trans _ _ _ Hq). unfold frac. rewrite E.
  unfold Qdiv. rewrite Qmult_0_l. apply Qle_refl.
Qed.

Lemma face_direction_none_iff (cfg : config) (w h : Z) (d : detection) :
  (0 < frac_threshold cfg)%Q ->
  face_direction cfg w h d = None <-> tongue_present cfg d = false.
Proof.
  intros Hth. unfold face_direction.
  destruct (mouth_box w h d) as [[[x0 y0] x1] y1].
  destruct (tongue_present cfg d) eqn:Hp; simpl; [|tauto].
  pose proof (present_has_pixels cfg d Hth Hp) as Hpx.
  assert (H1 : (tongue_px d >? 0) = true) by (apply Z.gtb_lt; exact Hpx).
  rewrite H1. rewrite m00_count. fold (tongue_px d). rewrite H1.
  split; discriminate.
Qed.

Lemma face_of_coherent (cfg : config) (w h : Z) (d : detection) (fc : face) :
  (0 < frac_threshold cfg)%Q ->
  face_of cfg w h d = Some fc ->
  direction fc = None <-> tongue fc = false.
Proof.
  intros Hth Hf. unfold face_of in Hf.
  destruct (mouth_box w h d) as [[[x0 y0] x1] y1] eqn:Hbox.
  destruct (box_ok w h d); [|discriminate].
  destruct (masks_ok d); [|discriminate].
  inversion Hf; subst. simpl. now apply face_direction_none_iff.
Qed.

Lemma single_reading_coherent (cfg : config) (fr : frame) :
  (0 < frac_threshold cfg)%Q ->
  snd (TongueSwitch.reading cfg fr) = None <-> fst (TongueSwitch.reading cfg fr) = false.
Proof.
  intros Hth. unfold TongueSwitch.reading.
  destruct (fr_landmarks fr) as [|d rest]; simpl; [tauto|].
  destruct (box_ok (fr_w fr) (fr_h fr) d); simpl; [|tauto].
  destruct (masks_ok d); simpl; [|tauto].
  now apply face_direction_none_iff.
Qed.

Lemma slot_values_coherent (cfg : config) (fr : frame) (i : nat) :
  (0 < frac_threshold cfg)%Q ->
  snd (MultiTongueSwitch.slot_values (sort_faces (faces_of cfg fr)) i) = None <->
  fst (MultiTongueSwitch.slot_values (sort_faces (faces_of cfg fr)) i) = false.
Proof.
  intros Hth. unfold MultiTongueSwitch.slot_values.
  destruct (i <? length (sort_faces (faces_of cfg fr)))%nat; simpl; [|tauto].
  destruct (sort_faces (faces_of cfg fr) !! i) as [fc|] eqn:Hfc; simpl; [|tauto].
  assert (Hin : fc ∈ faces_of cfg fr).
  { apply list_elem_of_In. apply (Permutation_in _ (sort_faces_perm _)).
    apply list_elem_of_In. eapply list_elem_of_lookup_2. exact Hfc. }
  unfold faces_of in Hin. apply list_elem_of_omap in Hin as (d & _ & Hd).
  exact (face_of_coherent cfg _ _ d fc Hth Hd).
Qed.

Lemma multi_step_coherent (f f' : MultiTongueSwitch.t) (ev : MultiTongueSwitch.event) :
  (0 < frac_threshold (_cfg f))%Q ->
  multi_shape f ->
  multi_coherent f ->
  MultiTongueSwitch.step f ev = Some f' ->
  multi_coherent f'.
Proof.
  intros Hth Hshape Hco Hstep.
  destruct ev as [| |i now|opened|rd]; simpl in Hstep.
  - rewrite multi_start_cases in Hstep.
    destruct (_enabled f); [destruct (_thread f)|]; inversion Hstep; subst; exact Hco.
  - rewrite multi_stop_cases in Hstep.
    destruct (_enabled f); inversion Hstep; subst; exact Hco.
  - inversion Hstep; subst f'. clear Hstep.
    destruct (multi_consume_cases f i now Hshape)
      as [[_ ->]|[(_ & _ & ->)|(_ & n & s & p & last & _ & _ & _ & _ & ->)]];
      try exact Hco.
    destruct (s && negb p && Qgtb (now - last) (debounce_s (_cfg f))); exact Hco.
  - destruct (_thread f); try discriminate. inversion Hstep; subst.
    unfold MultiTongueSwitch.run_open.
    destruct (_open_camera (_enabled f) opened); exact Hco.
  - destruct (_thread f); try discriminate.
    destruct (MultiTongueSwitch.run_turn f rd) as [f1|e] eqn:Ht; [|discriminate].
    inversion Hstep; subst f1. unfold MultiTongueSwitch.run_turn in Ht.
    destruct (_stop f); [inversion Ht; subst; exact Hco|].
    destruct rd as [fr|]; simpl in Ht; [|inversion Ht; subst; exact Hco].
    destruct (multi_publish_ok f (sort_faces (faces_of (_cfg f) fr)) (fr_rgb fr) Hshape)
      as (f2 & Hp & Hshape2 & (_ & Hcfg & _) & _ & Hslots).
    rewrite Hp in Ht. inversion Ht; subst f2.
    intros n s d Hs Hd.
    assert (Hn : (n < max_players (_cfg f))%nat).
    { apply lookup_lt_Some in Hs. destruct Hshape2 as (Ls & _). rewrite Ls, Hcfg in Hs.
      exact Hs. }
    destruct (Hslots n Hn) as [Es Ed]. rewrite Es in Hs. rewrite Ed in Hd.
    inversion Hs; inversion Hd; subst. now apply slot_values_coherent.
Qed.

Lemma multi_run_coherent (evs : list MultiTongueSwitch.event) :
  forall f f' : MultiTongueSwitch.t,
    (0 < frac_threshold (_cfg f))%Q ->
    multi_shape f ->
    multi_coherent f ->
    MultiTongueSwitch.run f evs = Some f' ->
    multi_coherent f'.
Proof.
  induction evs as [|ev rest IH]; intros f f' Hth Hshape Hco Hrun; simpl in Hrun.
  - now inversion Hrun; subst.
  - destruct (MultiTongueSwitch.step f ev) as [f1|] eqn:Hstep; [|discriminate].
    destruct (multi_step_shape _ _ _ Hshape Hstep) as (Hshape1 & _ & Hcfg).
    apply (IH f1 f'); try assumption.
    + now rewrite Hcfg.
    + now apply (multi_step_coherent f f1 ev).
Qed.

Lemma single_step_coherent (f f' : TongueSwitch.t) (ev : TongueSwitch.event) :
  (0 < frac_threshold (TongueSwitch._cfg f))%Q ->
  single_coherent f ->
  TongueSwitch.step f ev = Some f' ->
  single_coherent f' /\ TongueSwitch._cfg f' = TongueSwitch._cfg f.
Proof.
  intros Hth Hco Hstep. unfold single_coherent in *.
  destruct ev as [| |now|opened|rd]; unfold TongueSwitch.step in Hstep.
  - rewrite single_start_cases in Hstep.
    destruct (TongueSwitch._thread f); inversion Hstep; subst; now split.
  - rewrite single_stop_cases in Hstep. inversion Hstep; subst. now split.
  - inversion Hstep; subst. unfold TongueSwitch.consume_rising_edge.
    destruct (TongueSwitch._state f && negb (TongueSwitch._prev_state f)
              && Qgtb (now - TongueSwitch._last_event_time f)
                      (debounce_s (TongueSwitch._cfg f))); simpl; now split.
  - destruct (TongueSwitch._thread f); try discriminate. inversion Hstep; subst.
    unfold TongueSwitch.run_open. destruct (_open_camera true opened); now split.
  - destruct (TongueSwitch._thread f); try discriminate. inversion Hstep; subst.
    unfold TongueSwitch.run_turn, TongueSwitch.loop_body.
    destruct (TongueSwitch._stop f); [now split|].
    destruct rd as [fr|]; [|now split].
    pose proof (single_reading_coherent (TongueSwitch._cfg f) fr Hth) as Hr.
    destruct (TongueSwitch.reading (TongueSwitch._cfg f) fr) as [p dir].
    simpl in *. now split.
Qed.

Lemma single_run_coherent (evs : list TongueSwitch.event) :
  forall f f' : TongueSwitch.t,
    (0 < frac_threshold (TongueSwitch._cfg f))%Q ->
    single_coherent f ->
    TongueSwitch.run f evs = Some f' ->
    single_coherent f'.
Proof.
  induction evs as [|ev rest IH]; intros f f' Hth Hco Hrun; simpl in Hrun.
  - now inversion Hrun; subst.
  - destruct (TongueSwitch.step f ev) as [f1|] eqn:Hstep; [|discriminate].
    destruct (single_step_coherent f f1 ev Hth Hco Hstep) as [Hco1 Hcfg].
    apply (IH f1 f'); try assumption. now rewrite Hcfg.
Qed.

(** C4 (amended).  With a positive [frac_threshold], the direction is None
    exactly when the presence flag is false: for the reading of every face
    of a processed frame, in both classes, and for every published slot of
    every object a run leads to. *)
Theorem direction_absent_iff_not_present (cfg : config) :
  (0 < frac_threshold cfg)%Q ->
  (forall (w h : Z) (d : detection) (fc : face),
     face_of cfg w h d = Some fc ->
     (direction fc = None <-> tongue fc = false)) /\
  (forall fr : frame,
     snd (TongueSwitch.reading cfg fr) = None <->
     fst (TongueSwitch.reading cfg fr) = false) /\
  (forall (deps_ok : bool) (evs : list MultiTongueSwitch.event) (f : MultiTongueSwitch.t),
     MultiTongueSwitch.run (MultiTongueSwitch.__init__ deps_ok cfg) evs = Some f ->
     forall n : nat,
       (n < max_players cfg)%nat ->
       exists s d,
         _state f !! n = Some s /\ _direction f !! n = Some d /\
         (d = None <-> s = false)) /\
  (forall (evs : list TongueSwitch.event) (f : TongueSwitch.t),
     TongueSwitch.run (TongueSwitch.__init__ cfg) evs = Some f ->
     (TongueSwitch._direction f = None <-> TongueSwitch._state f = false)).
Proof.
  intros Hth. split; [|split; [|split]].
  - intros w h d fc. now apply face_of_coherent.
  - intros fr. now apply single_reading_coherent.
  - intros deps_ok evs f Hrun n Hn.
    destruct (multi_run_shape evs _ _ (multi_init_shape deps_ok cfg) Hrun)
      as ((Ls & _ & _ & Ld) & _ & Hcfg).
    simpl in Hcfg. rewrite Hcfg in Ls, Ld.
    destruct (lookup_lt_is_Some_2 (_state f) n) as [s Hs]; [lia|].
    destruct (lookup_lt_is_Some_2 (_direction f) n) as [d Hd]; [lia|].
    exists s, d. split; [exact Hs|]. split; [exact Hd|].
    assert (Hco : multi_coherent f).
    { apply (multi_run_coherent evs (MultiTongueSwitch.__init__ deps_ok cfg) f);
        try assumption.
      - apply multi_init_shape.
      - intros k s0 d0 Hs0 Hd0. simpl in Hs0, Hd0.
        apply lookup_replicate in Hs0 as [-> _].
        apply lookup_replicate in Hd0 as [-> _]. tauto. }
    exact (Hco n s d Hs Hd).
  - intros evs f Hrun.
    apply (single_run_coherent evs (TongueSwitch.__init__ cfg) f); try assumption.
    unfold single_coherent. simpl. tauto.
Qed.

Lemma direction_absent_iff_not_present_witness :
  (exists s d,
     _state first_show_object !! 0%nat = Some s /\
     _direction first_show_object !! 0%nat = Some d /\
     (d = None <-> s = false)) /\
  (TongueSwitch._direction single_first_show_object = None <->
   TongueSwitch._state single_first_show_object = false).
Proof.
  assert (Hth : (0 < frac_threshold default_config)%Q) by reflexivity.
  destruct (direction_absent_iff_not_present default_config Hth)
    as (_ & _ & Hmulti & Hsingle).
  split.
  - apply (Hmulti true first_show_run first_show_object); [vm_compute; reflexivity|].
    simpl. lia.
  - apply (Hsingle single_first_show_run single_first_show_object).
    vm_compute. reflexivity.
Defined.

(** C4 as stated fails: with [frac_threshold = 0] and [min_open_px = 0] a
    mouth with no gesture pixel at all is present, and the guard
    [tongue_px > 0] leaves its direction None. *)
Lemma present_without_direction :
  face_of lax_config 640 480 (mouth_at 300 grey_px)
    = Some {| mx := 304; my := 104; tongue := true; direction := None |} /\
  TongueSwitch.reading lax_config (frame_of [mouth_at 300 grey_px]) = (true, None) /\
  MultiTongueSwitch.get_state lax_object 0 = Ok true /\
  MultiTongueSwitch.get_direction lax_object 0 = Ok None.
Proof.
  split; [vm_compute; reflexivity|]. split; [vm_compute; reflexivity|].
  split; vm_compute; reflexivity.
Qed.

(** * Further properties of the code *)

(** ** Opening the camera *)





(** ** Direction labels under a mirror *)



(** ** Polling twice *)



(** ** The worker's loop turn *)



(** ** The mouth box *)



(** ** After the worker has returned *)




